(** * penaltyblog: the Bayesian hierarchical goal model

    A shallow embedding of [penaltyblog/models/bayesian_hierarchical.py]
    (class [BayesianHierarchicalGoalModel]) and the properties of its
    construction, fitting, prediction and parameter access.

    Conventions of the embedding.
    - float64 values that only flow through arithmetic, [np.exp] and
      [np.mean] are idealised as real numbers ([R]); rounding, overflow
      and nan are outside the embedding.  [np.mean] of an empty sequence
      is nan in numpy: statements that depend on the value of a mean carry
      the non-emptiness of the sequence as a hypothesis.
    - the goal counts handed to the constructor are only ever cast to int,
      so they are kept as Python numbers that evaluate ([pynum]).
    - exceptions raised by the source itself are [ValueError]s with their
      messages; exceptions that come out of pandas, numpy or pymc3 are
      [LibraryError]s.
    - a call that raises leaves the mutations it made before the raise, so
      [fit] returns its outcome together with the model and the heap.
    - [self.params] is a reference to a dict object: dicts live in a heap
      and the model holds a location. *)

From Stdlib Require Import Reals Lra Lia QArith ZArith List String Ascii Sorted.
From stdpp Require Import gmap strings list fin_maps.

#[local] Set Warnings "-clear-no-such-hyp".

Local Open Scope string_scope.
Local Open Scope Z_scope.
Local Open Scope list_scope.

(** ** Exceptions and outcomes *)

Inductive exception : Type :=
| ValueError (msg : string)
| KeyError (key : string)
| IndexError
| LibraryError (what : string).

Inductive result (A : Type) : Type :=
| Ok (a : A)
| Raise (e : exception).
Arguments Ok {A} a.
Arguments Raise {A} e.

Definition bind {A B} (r : result A) (k : A -> result B) : result B :=
  match r with
  | Ok a => k a
  | Raise e => Raise e
  end.

Notation "'do' x <- r ; k" := (bind r (fun x => k))
  (at level 10, x name, r at level 100, k at level 200).

Definition is_ok {A} (r : result A) : bool :=
  match r with Ok _ => true | Raise _ => false end.

(** ** Python numbers and the int cast *)

(** A goal count as the caller passes it: a Python int, a finite float (a
    rational), nan, or an infinity. *)
Inductive pynum : Type :=
| PyInt (z : Z)
| PyFloat (q : Q)
| PyNaN
| PyInf (negative : bool).

Definition int64_min : Z := - 2 ^ 63.
Definition int64_max : Z := 2 ^ 63 - 1.

(** Python's [int(x)]: truncation toward zero on floats. *)
Definition py_int (x : pynum) : result Z :=
  match x with
  | PyInt z => Ok z
  | PyFloat q => Ok (Z.quot (Qnum q) (Zpos (Qden q)))
  | PyNaN => Raise (LibraryError "cannot convert float NaN to integer")
  | PyInf _ => Raise (LibraryError "cannot convert float infinity to integer")
  end.

(** One cell of [Series.astype(int)] on an object column: [int()] of the
    cell, stored as a 64-bit integer.  [None] is the missing value the
    DataFrame constructor pads short rows with. *)
Definition astype_int_cell (c : option pynum) : result Z :=
  match c with
  | None => Raise (LibraryError "int() of a missing value")
  | Some x =>
      do z <- py_int x;
      if ((int64_min <=? z) && (z <=? int64_max))%Z then Ok z
      else Raise (LibraryError "Python int too large to convert to C long")
  end.

Fixpoint astype_int (col : list (option pynum)) : result (list Z) :=
  match col with
  | [] => Ok []
  | c :: rest =>
      do z <- astype_int_cell c;
      do zs <- astype_int rest;
      Ok (z :: zs)
  end.

(** ** The fixture table *)

(** [pd.DataFrame([r0, r1, r2, r3]).T]: the frame has as many rows as the
    longest input sequence, shorter sequences are padded with missing
    values. *)
Definition pad {A} (N : nat) (l : list A) : list (option A) :=
  map (fun i => l !! i) (seq 0 N).

Definition frame_rows {A B} (goals_home goals_away : list A)
    (teams_home teams_away : list B) : nat :=
  (length goals_home `max` length goals_away)
    `max` (length teams_home `max` length teams_away).

(** The [weights] argument: a scalar (broadcast to every row) or a
    sequence. *)
Inductive weights_arg : Type :=
| WScalar (w : Q)
| WList (ws : list Q).

(** [frame["weights"] = weights] on a frame of [N] rows.  (On a frame
    without rows pandas does not raise for a non-empty sequence but takes
    the row index from it; that path is not followed here.) *)
Definition assign_weights (N : nat) (w : weights_arg) : result (list Q) :=
  match w with
  | WScalar x => Ok (replicate N x)
  | WList ws =>
      if Nat.eqb (length ws) N then Ok ws
      else Raise (LibraryError "Length of values does not match length of index")
  end.

(** Distinct values in order of first appearance ([unique],
    [drop_duplicates]). *)
Fixpoint unique_from {A} `{EqDecision A} (seen : list A) (l : list A) : list A :=
  match l with
  | [] => []
  | x :: rest =>
      if decide (x ∈ seen) then unique_from seen rest
      else x :: unique_from (x :: seen) rest
  end.

Definition drop_duplicates {A} `{EqDecision A} (l : list A) : list A :=
  unique_from [] l.

(** The order [sort_values] uses on a column of names: strings by code
    point, missing values last. *)
Definition team_leb (a b : option string) : bool :=
  match a, b with
  | Some x, Some y => String.leb x y
  | Some _, None => true
  | None, Some _ => false
  | None, None => true
  end.

Fixpoint insert_sorted (x : option string) (l : list (option string))
  : list (option string) :=
  match l with
  | [] => [x]
  | y :: rest => if team_leb x y then x :: y :: rest else y :: insert_sorted x rest
  end.

(** [sort_values] on distinct keys: every sorting algorithm gives the same
    row order. *)
Fixpoint sort_values (l : list (option string)) : list (option string) :=
  match l with
  | [] => []
  | x :: rest => insert_sorted x (sort_values rest)
  end.

(** Position of a name in the team table; [None] is the NaN a left merge
    leaves when the name has no row there. *)
Fixpoint team_index (teams : list (option string)) (t : option string) : option nat :=
  match teams with
  | [] => None
  | x :: rest => if decide (x = t) then Some 0%nat else S <$> team_index rest t
  end.

Record fixture : Type := mk_fixture {
  goals_home : Z;
  goals_away : Z;
  team_home : option string;
  team_away : option string;
  weights : Q;
  home_index : option nat;
  away_index : option nat
}.

Fixpoint build_fixtures (teams : list (option string))
    (gh ga : list Z) (th ta : list (option string)) (ws : list Q) : list fixture :=
  match gh, ga, th, ta, ws with
  | g1 :: gh', g2 :: ga', t1 :: th', t2 :: ta', w :: ws' =>
      mk_fixture g1 g2 t1 t2 w (team_index teams t1) (team_index teams t2)
        :: build_fixtures teams gh' ga' th' ta' ws'
  | _, _, _, _, _ => []
  end.

(** ** numpy and scipy on real numbers *)

Definition np_sum (xs : list R) : R := fold_right Rplus 0%R xs.

(** [np.mean], [tt.mean]: the arithmetic mean, in exact arithmetic.  On an
    empty sequence numpy returns nan, where this quotient is 0: the value
    of the mean of an empty sequence has no counterpart here. *)
Definition np_mean (xs : list R) : R := (np_sum xs / INR (length xs))%R.

(** [np.arange(0, stop)] for an integer [stop]: empty when [stop <= 0]. *)
Definition np_arange (stop : Z) : list Z :=
  map Z.of_nat (seq 0 (Z.to_nat stop)).

(** [scipy.stats.poisson(mu).pmf(k)] at an integer [k]:
    [exp(-mu) * mu^k / k!], and 0 below the support.  This is the exact
    value; the float64 the library returns is a rounding of it, and
    rounding and underflow are not modelled. *)
Definition poisson_pmf (mu : R) (k : Z) : R :=
  if (k <? 0)%Z then 0%R
  else (exp (- mu) * mu ^ Z.to_nat k / INR (fact (Z.to_nat k)))%R.

(** A two-dimensional array: its shape and its rows. *)
Record ndarray : Type := mk_ndarray {
  shape : nat * nat;
  data : list (list R)
}.

(** [np.outer(a, b)]: entry (i, j) is [a[i] * b[j]]. *)
Definition np_outer (a b : list R) : ndarray :=
  {| shape := (length a, length b);
     data := map (fun x => map (fun y => (x * y)%R) b) a |}.

(** Modelled from the spec: the class [FootballProbabilityGrid] of
    [football_probability_grid.py] is not among the sources; per the spec
    it carries the matrix and the two scalar rates used to build it. *)
Record FootballProbabilityGrid : Type := mk_grid {
  grid : ndarray;
  home_goal_expectation : R;
  away_goal_expectation : R
}.

(** ** The sampler's trace *)

(** What [pm.sample] returns, pooled over chains after tuning: for each
    sample the free variables [home], [intercept], [atts_star],
    [def_star].  The deterministic variables [atts] and [defs] are computed
    from them as the model declares. *)
Record MultiTrace : Type := mk_trace {
  trace_home : list R;
  trace_intercept : list R;
  trace_atts_star : list (list R);
  trace_def_star : list (list R)
}.

(** [x - tt.mean(x)] on one draw. *)
Definition centre (x : list R) : list R :=
  map (fun v => (v - np_mean x)%R) x.

Definition trace_atts (tr : MultiTrace) : list (list R) :=
  map centre (trace_atts_star tr).

Definition trace_defs (tr : MultiTrace) : list (list R) :=
  map centre (trace_def_star tr).

(** [[x[idx] for x in draws]]; [None] when some [x[idx]] is out of
    range. *)
Fixpoint column (idx : nat) (draws : list (list R)) : option (list R) :=
  match draws with
  | [] => Some []
  | x :: rest =>
      match x !! idx, column idx rest with
      | Some v, Some vs => Some (v :: vs)
      | _, _ => None
      end
  end.

(** ** Dict objects and the model object *)

Abbreviation loc := nat.
Abbreviation Heap := (list (gmap string R)).

(** [dict()]: a new empty dict object. *)
Definition dict_new (h : Heap) : loc * Heap := (length h, h ++ [∅]).

(** [d[k] = v] on the dict object at [p]. *)
Definition dict_setitem (p : loc) (k : string) (v : R) (h : Heap) : Heap :=
  alter (fun d : gmap string R => <[k := v]> d) p h.

(** [d[k]]. *)
Definition dict_getitem (p : loc) (k : string) (h : Heap) : result R :=
  match h !! p with
  | Some d =>
      match d !! k with
      | Some v => Ok v
      | None => Raise (KeyError k)
      end
  | None => Raise (KeyError k)
  end.

Record Model : Type := mk_model {
  fixtures : list fixture;
  n_teams : nat;
  teams : list (option string);
  trace : option MultiTrace;
  draws : Z;
  params : loc;
  n_jobs : option Z;
  fitted : bool
}.

Module BayesianHierarchicalGoalModel.

(** [__init__].  [cpu_count] is what [os.cpu_count()] returns on the host. *)
Definition __init__ (cpu_count : option Z)
    (goals_home goals_away : list pynum) (teams_home teams_away : list string)
    (weights : weights_arg) (n_jobs : option Z) (draws : Z)
    (h : Heap) : result (Model * Heap) :=
  let N := frame_rows goals_home goals_away teams_home teams_away in
  let col_team_home := pad N teams_home in
  let col_team_away := pad N teams_away in
  do col_goals_home <- astype_int (pad N goals_home);
  do col_goals_away <- astype_int (pad N goals_away);
  do _ <- assign_weights N weights;
  do col_weights <- assign_weights N weights;
  let n_teams := length (drop_duplicates col_team_home) in
  let teams := sort_values (drop_duplicates col_team_home) in
  let fixtures :=
    build_fixtures teams col_goals_home col_goals_away
      col_team_home col_team_away col_weights in
  let '(params, h1) := dict_new h in
  let n_jobs' :=
    match n_jobs with
    | None => cpu_count
    | Some j =>
        if (j =? -1)%Z then cpu_count
        else if (j =? 0)%Z then Some 1%Z
        else Some j
    end in
  Ok ({| fixtures := fixtures; n_teams := n_teams; teams := teams;
         trace := None; draws := draws; params := params;
         n_jobs := n_jobs'; fitted := false |}, h1).

Definition set_trace (self : Model) (tr : MultiTrace) : Model :=
  {| fixtures := fixtures self; n_teams := n_teams self; teams := teams self;
     trace := Some tr; draws := draws self; params := params self;
     n_jobs := n_jobs self; fitted := fitted self |}.

Definition set_fitted (self : Model) : Model :=
  {| fixtures := fixtures self; n_teams := n_teams self; teams := teams self;
     trace := trace self; draws := draws self; params := params self;
     n_jobs := n_jobs self; fitted := true |}.

(** The loop [for idx, row in self.teams.iterrows()] of [fit], from row
    [idx] on.  In each assignment the right-hand side is evaluated before
    the key. *)
Fixpoint fit_rows (tr : MultiTrace) (p : loc) (idx : nat)
    (rows : list (option string)) (h : Heap) : result unit * Heap :=
  match rows with
  | [] => (Ok tt, h)
  | row :: rest =>
      match column idx (trace_atts tr) with
      | None => (Raise IndexError, h)
      | Some xs =>
          match row with
          | None => (Raise (LibraryError "can only concatenate str to str"), h)
          | Some team =>
              let h1 := dict_setitem p ("attack_" +:+ team) (np_mean xs) h in
              match column idx (trace_defs tr) with
              | None => (Raise IndexError, h1)
              | Some ys =>
                  let h2 := dict_setitem p ("defence_" +:+ team) (np_mean ys) h1 in
                  fit_rows tr p (S idx) rest h2
              end
          end
      end
  end.

(** [fit].  [sample] is the outcome of the [pm.sample] call on the model
    the method declares: a trace, or the exception it raised. *)
Definition fit (self : Model) (sample : result MultiTrace) (h : Heap)
  : result unit * Model * Heap :=
  match sample with
  | Raise e => (Raise e, self, h)
  | Ok tr =>
      let self1 := set_trace self tr in
      let h1 := dict_setitem (params self) "home" (np_mean (trace_home tr)) h in
      let h2 := dict_setitem (params self) "intercept"
                  (np_mean (trace_intercept tr)) h1 in
      match fit_rows tr (params self) 0 (teams self) h2 with
      | (Raise e, h3) => (Raise e, self1, h3)
      | (Ok _, h3) => (Ok tt, set_fitted self1, h3)
      end
  end.

Definition not_fitted_predict_msg : string :=
  "Model's parameters have not been fit yet, please call the `fit()` function before making any predictions".

Definition no_home_team_msg : string :=
  "No parameters for home team - please ensure the team was included in the training data".

Definition no_away_team_msg : string :=
  "No parameters for away team - please ensure the team was included in the training data".

Definition not_fitted_params_msg : string :=
  "Model's parameters have not been fit yet, please call the `fit()` function first".

Definition goals_vector (rate : R) (max_goals : Z) : list R :=
  map (poisson_pmf rate) (np_arange max_goals).

(** [predict]. *)
Definition predict (self : Model) (home_team away_team : string)
    (max_goals : Z) (h : Heap) : result FootballProbabilityGrid :=
  if negb (fitted self) then Raise (ValueError not_fitted_predict_msg)
  else if negb (bool_decide (Some home_team ∈ teams self)) then
    Raise (ValueError no_home_team_msg)
  else if negb (bool_decide (Some away_team ∈ teams self)) then
    Raise (ValueError no_away_team_msg)
  else
    do home <- dict_getitem (params self) "home" h;
    do intercept <- dict_getitem (params self) "intercept" h;
    do atts_home <- dict_getitem (params self) ("attack_" +:+ home_team) h;
    do atts_away <- dict_getitem (params self) ("attack_" +:+ away_team) h;
    do defs_home <- dict_getitem (params self) ("defence_" +:+ home_team) h;
    do defs_away <- dict_getitem (params self) ("defence_" +:+ away_team) h;
    let home_goals := exp (intercept + home + atts_home + defs_away)%R in
    let away_goals := exp (intercept + atts_away + defs_home)%R in
    let home_goals_vector := goals_vector home_goals max_goals in
    let away_goals_vector := goals_vector away_goals max_goals in
    let m := np_outer home_goals_vector away_goals_vector in
    Ok (mk_grid m home_goals away_goals).

(** [get_params]: the dict object itself is returned. *)
Definition get_params (self : Model) : result loc :=
  if negb (fitted self) then Raise (ValueError not_fitted_params_msg)
  else Ok (params self).

End BayesianHierarchicalGoalModel.

Import BayesianHierarchicalGoalModel.

(** ** A small league, used to evaluate the definitions *)

Module Example.

Definition init : result (Model * Heap) :=
  __init__ (Some 8)
    [PyInt 1; PyInt 0; PyInt 2; PyInt 1] [PyInt 0; PyInt 0; PyInt 1; PyInt 3]
    ["B"; "A"; "C"; "A"] ["A"; "C"; "B"; "B"]
    (WScalar 1) None 200 [].

Definition model0 : Model :=
  match init with Ok (m, _) => m | Raise _ => mk_model [] 0%nat [] None 0 0%nat None false end.

Definition heap0 : Heap :=
  match init with Ok (_, h) => h | Raise _ => [] end.

(** Two pooled samples for a league of three teams. *)
Definition samples : MultiTrace :=
  {| trace_home := [1; 3]%R;
     trace_intercept := [0; 0]%R;
     trace_atts_star := [[1; 2; 3]; [0; 0; 3]]%R;
     trace_def_star := [[0; 0; 0]; [3; 0; 0]]%R |}.

Definition model1 : Model := (fit model0 (Ok samples) heap0).1.2.
Definition heap1 : Heap := (fit model0 (Ok samples) heap0).2.

End Example.

(** ** Histories of a model object *)

(** The contract of the sampler: every draw of a vector variable has the
    shape the model declares for it ([shape=self.n_teams]). *)
Definition trace_shape (n : nat) (tr : MultiTrace) : Prop :=
  Forall (fun x => length x = n) (trace_atts_star tr)
  /\ Forall (fun x => length x = n) (trace_def_star tr).

Definition sampler_contract (self : Model) (s : result MultiTrace) : Prop :=
  match s with
  | Ok tr => trace_shape (n_teams self) tr
  | Raise _ => True
  end.

(** [run log m h]: the model [m] with heap [h] is what a constructor call
    followed by a sequence of [fit] calls leaves; [log] lists the outcomes
    of those [fit] calls, the latest first. *)
Inductive run : list (result unit) -> Model -> Heap -> Prop :=
| run_init cpu gh ga th ta w nj dr h m h' :
    __init__ cpu gh ga th ta w nj dr h = Ok (m, h') ->
    run [] m h'
| run_fit log m h s r m' h' :
    run log m h ->
    sampler_contract m s ->
    fit m s h = (r, m', h') ->
    run (r :: log) m' h'.

(** A fitted model: some [fit] call on it has completed. *)
Definition fitted_model (m : Model) (h : Heap) : Prop :=
  fitted m = true /\ exists log, run log m h.

(** The keys [fit] writes for the rows of the team table. *)
Fixpoint team_keys (rows : list (option string)) : gset string :=
  match rows with
  | [] => ∅
  | Some t :: rest => {[ "attack_" +:+ t ]} ∪ {[ "defence_" +:+ t ]} ∪ team_keys rest
  | None :: rest => team_keys rest
  end.

(** The key set of a parameter mapping whose home-advantage scalar is
    stored under [home_key]. *)
Definition param_keys (home_key : string) (rows : list (option string)) : gset string :=
  {[ home_key ]} ∪ {[ "intercept" ]} ∪ team_keys rows.

(** [needle in haystack] on strings. *)
Fixpoint contains (haystack needle : string) : bool :=
  String.prefix needle haystack ||
  match haystack with
  | EmptyString => false
  | String _ rest => contains rest needle
  end.

(** The values stored for the rows of the team table, in table order. *)
Definition stored (prefix : string) (self : Model) (h : Heap) : list (option R) :=
  map (fun row => t ← row; d ← h !! params self; d !! (prefix +:+ t)) (teams self).

(** What a completed [fit] leaves in the parameter dict [d] for the
    trace [tr]: the mean of each scalar variable and, for row [j] of the
    team table, the means of entry [j] of the centred draws. *)
Definition stores (tr : MultiTrace) (rows : list (option string))
    (d : gmap string R) : Prop :=
  d !! "home" = Some (np_mean (trace_home tr))
  /\ d !! "intercept" = Some (np_mean (trace_intercept tr))
  /\ forall j t, rows !! j = Some (Some t) ->
       exists xs ys,
         column j (trace_atts tr) = Some xs
         /\ column j (trace_defs tr) = Some ys
         /\ d !! ("attack_" +:+ t) = Some (np_mean xs)
         /\ d !! ("defence_" +:+ t) = Some (np_mean ys).

(** The invariant of every history. *)
Record invariant (m : Model) (h : Heap) : Prop := mk_invariant {
  inv_nodup : NoDup (teams m);
  inv_n_teams : n_teams m = length (teams m);
  inv_params :
    exists d, h !! params m = Some d
      /\ dom d ⊆ param_keys "home" (teams m)
      /\ (fitted m = true ->
            Forall is_Some (teams m)
            /\ exists tr, trace m = Some tr
                 /\ trace_shape (n_teams m) tr
                 /\ stores tr (teams m) d)
}.

(** The value [astype(int)] stores for a goal count, when the cast
    goes through. *)
Definition int_of (x : pynum) : option Z :=
  match astype_int_cell (Some x) with
  | Ok z => Some z
  | Raise _ => None
  end.

Definition is_negative (x : pynum) : bool :=
  match x with
  | PyInt z => (z <? 0)%Z
  | PyFloat q => (Qnum q <? 0)%Z
  | PyNaN => false
  | PyInf negative => negative
  end.

Definition is_integer_valued (x : pynum) : bool :=
  match x with
  | PyInt _ => true
  | PyFloat q => (Z.rem (Qnum q) (Zpos (Qden q)) =? 0)%Z
  | PyNaN => false
  | PyInf _ => false
  end.

Definition weight_values (w : weights_arg) : list Q :=
  match w with
  | WScalar x => [x]
  | WList ws => ws
  end.

(** The inputs the specification wants the constructor to reject. *)
Definition invalid_input (goals_home goals_away : list pynum)
    (teams_home teams_away : list string) (w : weights_arg) : bool :=
  negb (Nat.eqb (length goals_home) (length goals_away)
        && Nat.eqb (length goals_away) (length teams_home)
        && Nat.eqb (length teams_home) (length teams_away))
  || existsb is_negative (goals_home ++ goals_away)
  || existsb (fun x => negb (is_integer_valued x)) (goals_home ++ goals_away)
  || existsb (fun x => (Qnum x <? 0)%Z) (weight_values w).

(** The weights fit a frame of [N] rows. *)
Definition weights_fit (N : nat) (w : weights_arg) : Prop :=
  match w with
  | WScalar _ => True
  | WList ws => length ws = N
  end.

(** The Poisson mass function on the support. *)
Definition pmf_nat (mu : R) (i : nat) : R :=
  (exp (- mu) * mu ^ i / INR (fact i))%R.

(** [x[idx]] for every draw, with 0 where a draw is too short. *)
Definition entries (idx : nat) (draws : list (list R)) : list R :=
  map (fun x => nth idx x 0%R) draws.

(** ** The ESPN scraper: [penaltyblog/scrapers/espn.py]

    The two methods of the class [ESPN] that compute on values: the season
    mapping and the extraction of the fixtures from a decoded JSON
    document.  Strings are sequences of characters, one [ascii] each. *)

Module ESPN.

(** What [json.loads] returns.  The fields of an object are the items of
    the dict in insertion order. *)
#[local] Set Warnings "-register-all".
Inductive json : Type :=
| JNull
| JBool (b : bool)
| JInt (z : Z)
| JFloat (q : Q)
| JStr (s : string)
| JList (items : list json)
| JObj (fields : list (string * json)).
#[local] Set Warnings "register-all".

(** The exceptions the interpreter raises on these values. *)
Inductive error : Type :=
| KeyError (key : json)
| IndexError
| TypeError
| AttributeError.

Inductive outcome (A : Type) : Type :=
| Return (a : A)
| Throw (e : error).
Arguments Return {A} a.
Arguments Throw {A} e.

Definition and_then {A B} (r : outcome A) (k : A -> outcome B) : outcome B :=
  match r with
  | Return a => k a
  | Throw e => Throw e
  end.

Notation "'let*' x ':=' r 'in' k" := (and_then r (fun x => k))
  (at level 10, x name, r at level 100, k at level 200).

(** [str.split(sep)] for a separator of one character. *)
Fixpoint str_split (sep : ascii) (s : string) : list string :=
  match s with
  | "" => [""]
  | String c rest =>
      if Ascii.eqb c sep then "" :: str_split sep rest
      else match str_split sep rest with
           | [] => [String c ""]
           | w :: ws => String c w :: ws
           end
  end.

(** [_map_season]. *)
Definition _map_season (season : string) : outcome string :=
  let years := str_split "-" season in
  match years !! 0%nat with
  | Some part1 => Return part1
  | None => Throw IndexError
  end.

Definition lookup_key (k : string) (fields : list (string * json)) : option json :=
  snd <$> List.find (fun kv => String.eqb (fst kv) k) fields.

(** [x[k]] for a string [k]. *)
Definition getitem (x : json) (k : string) : outcome json :=
  match x with
  | JObj fields =>
      match lookup_key k fields with
      | Some v => Return v
      | None => Throw (KeyError (JStr k))
      end
  | _ => Throw TypeError
  end.

(** [x[i]] for an integer [i >= 0]; a dict decoded from JSON has no
    integer key. *)
Definition getindex (x : json) (i : nat) : outcome json :=
  match x with
  | JList items =>
      match items !! i with
      | Some v => Return v
      | None => Throw IndexError
      end
  | JStr s =>
      match String.get i s with
      | Some c => Return (JStr (String c ""))
      | None => Throw IndexError
      end
  | JObj _ => Throw (KeyError (JInt (Z.of_nat i)))
  | _ => Throw TypeError
  end.

(** [x.get(k, default)]; [x.get(k)] is [x.get(k, None)]. *)
Definition get (x : json) (k : string) (default : json) : outcome json :=
  match x with
  | JObj fields =>
      match lookup_key k fields with
      | Some v => Return v
      | None => Return default
      end
  | _ => Throw AttributeError
  end.

(** What [for v in x] iterates over. *)
Definition iterate (x : json) : outcome (list json) :=
  match x with
  | JList items => Return items
  | JObj fields => Return (map (fun kv => JStr (fst kv)) fields)
  | JStr s => Return (map (fun c => JStr (String c "")) (list_ascii_of_string s))
  | _ => Throw TypeError
  end.

(** [x + suffix] for a string [suffix]. *)
Definition add_str (x : json) (suffix : string) : outcome string :=
  match x with
  | JStr s => Return (s +:+ suffix)
  | _ => Throw TypeError
  end.

(** [e["competitions"][0]]. *)
Definition competition (e : json) : outcome json :=
  let* cs := getitem e "competitions" in
  getindex cs 0.

(** [e["competitions"][0]["competitors"][i]]. *)
Definition competitor (e : json) (i : nat) : outcome json :=
  let* c := competition e in
  let* cs := getitem c "competitors" in
  getindex cs i.

(** The loop [for stat in ...: tmp[stat["name"] + suffix] =
    stat["displayValue"]]; the right-hand side is evaluated first. *)
Fixpoint scrape_statistics (suffix : string) (stats : list json)
    (tmp : gmap string json) : outcome (gmap string json) :=
  match stats with
  | [] => Return tmp
  | stat :: rest =>
      let* v := getitem stat "displayValue" in
      let* name := getitem stat "name" in
      let* key := add_str name suffix in
      scrape_statistics suffix rest (<[key := v]> tmp)
  end.

(** The body of the loop over the events. *)
Definition scrape_event (e : json) : outcome (gmap string json) :=
  let tmp : gmap string json := ∅ in
  let* c := competition e in
  let* v := get c "id" JNull in
  let tmp := <["espn_id" := v]> tmp in
  let* c := competition e in
  let* v := get c "date" JNull in
  let tmp := <["datetime" := v]> tmp in
  let* c := competition e in
  let* v := get c "attendance" JNull in
  let tmp := <["attendance" := v]> tmp in
  let* c := competitor e 0 in
  let* t := getitem c "team" in
  let* v := get t "name" JNull in
  let tmp := <["team_home" := v]> tmp in
  let* c := competitor e 1 in
  let* t := getitem c "team" in
  let* v := get t "name" JNull in
  let tmp := <["team_away" := v]> tmp in
  let* c := competitor e 0 in
  let* v := get c "score" JNull in
  let tmp := <["goals_home" := v]> tmp in
  let* c := competitor e 1 in
  let* v := get c "score" JNull in
  let tmp := <["goals_away" := v]> tmp in
  let* c := competitor e 0 in
  let* s := getitem c "statistics" in
  let* stats := iterate s in
  let* tmp := scrape_statistics "_home" stats tmp in
  let* c := competitor e 1 in
  let* s := getitem c "statistics" in
  let* stats := iterate s in
  scrape_statistics "_away" stats tmp.

Fixpoint scrape_events (es : list json) : outcome (list (gmap string json)) :=
  match es with
  | [] => Return []
  | e :: rest =>
      let* tmp := scrape_event e in
      let* events := scrape_events rest in
      Return (tmp :: events)
  end.

(** [_scrape_fixture_events]. *)
Definition _scrape_fixture_events (content : json)
  : outcome (list (gmap string json)) :=
  let* evs := get content "events" (JList []) in
  let* es := iterate evs in
  scrape_events es.

(** The key a statistic is stored under, when its name is a string. *)
Definition stat_key (suffix : string) (stat : json) : option string :=
  match getitem stat "name" with
  | Return (JStr n) => Some (n +:+ suffix)
  | _ => None
  end.

(** The keys every event dict starts with. *)
Definition base_keys : gset string :=
  {[ "espn_id"; "datetime"; "attendance"; "team_home"; "team_away";
     "goals_home"; "goals_away" ]}.

(** A sample document: one event with a shadowing statistic. *)
Definition sample_competitor (name score : string) (stats : list json) : json :=
  JObj [("team", JObj [("name", JStr name)]); ("score", JStr score);
        ("statistics", JList stats)].

Definition sample_stat (name value : string) : json :=
  JObj [("name", JStr name); ("displayValue", JStr value)].

Definition sample_event : json :=
  JObj [("competitions",
         JList [JObj [("id", JStr "601"); ("date", JStr "2021-08-13T19:00Z");
                      ("attendance", JInt 16479);
                      ("competitors",
                       JList [sample_competitor "Brentford" "2"
                                [sample_stat "totalShots" "8";
                                 sample_stat "goals" "9";
                                 sample_stat "totalShots" "10"];
                              sample_competitor "Arsenal" "0"
                                [sample_stat "totalShots" "22"]])]])].

Definition sample_content : json := JObj [("events", JList [sample_event])].

(** The part of [k] before the suffix [suffix], when [k] ends with it. *)
Definition strip_suffix (k suffix : string) : option string :=
  let lk := list_ascii_of_string k in
  let ls := list_ascii_of_string suffix in
  if decide (drop (length lk - length ls) lk = ls) then
    Some (string_of_list_ascii (take (length lk - length ls) lk))
  else None.

End ESPN.

(** ** The heap and the keys *)

Section Heap.
Implicit Types (h : Heap) (d : gmap string R) (p q : loc) (k : string).

Lemma dict_setitem_lookup h p k v d :
  h !! p = Some d -> dict_setitem p k v h !! p = Some (<[k := v]> d).
Proof.
  intros Hp. unfold dict_setitem. rewrite list_lookup_alter_eq, Hp. done.
Qed.

Lemma dict_setitem_lookup_ne h p q k v :
  p <> q -> dict_setitem p k v h !! q = h !! q.
Proof. intros Hne. unfold dict_setitem. by rewrite list_lookup_alter_ne. Qed.

Lemma dict_getitem_ok h p k d v :
  h !! p = Some d -> d !! k = Some v -> dict_getitem p k h = Ok v.
Proof. intros Hp Hk. unfold dict_getitem. by rewrite Hp, Hk. Qed.

Lemma dict_new_lookup h : (dict_new h).2 !! (dict_new h).1 = Some ∅.
Proof.
  unfold dict_new; simpl. rewrite lookup_app_r by lia.
  by rewrite Nat.sub_diag.
Qed.
End Heap.

Lemma attack_inj (s t : string) : "attack_" +:+ s = "attack_" +:+ t -> s = t.
Proof. apply String.app_inj. Qed.

Lemma defence_inj (s t : string) : "defence_" +:+ s = "defence_" +:+ t -> s = t.
Proof. apply String.app_inj. Qed.

Lemma attack_defence (s t : string) : "attack_" +:+ s <> "defence_" +:+ t.
Proof. cbv [String.append]. congruence. Qed.

Lemma elem_of_team_keys (rows : list (option string)) (k : string) :
  k ∈ team_keys rows <->
  exists t, Some t ∈ rows /\ (k = "attack_" +:+ t \/ k = "defence_" +:+ t).
Proof.
  induction rows as [|[t|] rows IH]; simpl.
  - split; [set_solver|]. intros (t & Ht & _). by apply elem_of_nil in Ht.
  - rewrite !elem_of_union, !elem_of_singleton, IH. split.
    + intros [[->| ->]|(u & Hu & Hk)].
      * exists t. split; [left|]; auto.
      * exists t. split; [left|]; auto.
      * exists u. split; [by right|done].
    + intros (u & Hu & Hk). apply elem_of_cons in Hu as [Hu|Hu].
      * injection Hu as ->. destruct Hk; auto.
      * right. eauto.
  - rewrite IH. split; intros (u & Hu & Hk); exists u; split; auto.
    + by right.
    + apply elem_of_cons in Hu as [Hu|Hu]; [done|auto].
Qed.

Lemma scalar_not_team_key (rows : list (option string)) (k : string) :
  k = "home" \/ k = "intercept" \/ k = "home_advantage" -> k ∉ team_keys rows.
Proof.
  intros Hk Hin. apply elem_of_team_keys in Hin as (t & _ & Ht).
  destruct Hk as [->|[->| ->]], Ht as [Ht|Ht];
    cbv [String.append] in Ht; congruence.
Qed.

(** ** The team table *)

Lemma unique_from_spec {A} `{EqDecision A} (l seen : list A) :
  NoDup (unique_from seen l)
  /\ forall x, x ∈ unique_from seen l <-> x ∈ l /\ x ∉ seen.
Proof.
  revert seen. induction l as [|a l IH]; intros seen; simpl.
  - split; [constructor|]. intros x. rewrite elem_of_nil. tauto.
  - destruct (decide (a ∈ seen)) as [Hin|Hnin].
    + destruct (IH seen) as [Hnd Hmem]. split; [done|].
      intros x. rewrite Hmem, elem_of_cons. split; [tauto|].
      intros [[->|Hx] Hs]; [contradiction|tauto].
    + destruct (IH (a :: seen)) as [Hnd Hmem]. split.
      * constructor; [|done]. rewrite Hmem, elem_of_cons. tauto.
      * intros x. rewrite !elem_of_cons, Hmem, elem_of_cons.
        destruct (decide (x = a)) as [->|Hne]; [tauto|]. tauto.
Qed.

Lemma insert_sorted_perm (x : option string) (l : list (option string)) :
  insert_sorted x l ≡ₚ x :: l.
Proof.
  induction l as [|y l IH]; simpl; [done|].
  destruct (team_leb x y); [done|]. rewrite IH. apply Permutation_swap.
Qed.

Lemma sort_values_perm (l : list (option string)) : sort_values l ≡ₚ l.
Proof.
  induction l as [|x l IH]; simpl; [done|].
  by rewrite insert_sorted_perm, IH.
Qed.

Lemma init_facts cpu gh ga th ta w nj dr h m h' :
  __init__ cpu gh ga th ta w nj dr h = Ok (m, h') ->
  NoDup (teams m) /\ n_teams m = length (teams m)
  /\ fitted m = false /\ trace m = None /\ h' !! params m = Some ∅.
Proof.
  unfold __init__. intros Hinit.
  destruct (astype_int _) as [c1|]; [simpl in Hinit|discriminate].
  destruct (astype_int _) as [c2|]; [simpl in Hinit|discriminate].
  destruct (assign_weights _ _) as [c3|]; [simpl in Hinit|discriminate].
  injection Hinit as <- <-. simpl. repeat split.
  - rewrite sort_values_perm. apply (unique_from_spec _ []).
  - by rewrite sort_values_perm.
  - rewrite lookup_app_r by lia. by rewrite Nat.sub_diag.
Qed.

(** ** The aggregation loop of [fit] *)

Section FitRows.
Variable tr : MultiTrace.
Variable p : loc.

Lemma fit_rows_dom (rows : list (option string)) :
  forall idx (h : Heap) (d : gmap string R),
    h !! p = Some d ->
    exists d', (fit_rows tr p idx rows h).2 !! p = Some d'
               /\ dom d' ⊆ dom d ∪ team_keys rows.
Proof.
  induction rows as [|row rows IH]; intros idx h d Hp; simpl.
  - exists d. split; [done|set_solver].
  - destruct (column idx (trace_atts tr)) as [xs|]; simpl;
      [|exists d; split; [done|set_solver]].
    destruct row as [team|]; simpl; [|exists d; split; [done|set_solver]].
    pose proof (dict_setitem_lookup h p ("attack_" +:+ team) (np_mean xs) d Hp)
      as Hp1.
    destruct (column idx (trace_defs tr)) as [ys|]; simpl.
    + pose proof (dict_setitem_lookup _ p ("defence_" +:+ team) (np_mean ys) _ Hp1)
        as Hp2.
      destruct (IH (S idx) _ _ Hp2) as (d' & Hd' & Hdom).
      exists d'. split; [done|]. rewrite !dom_insert in Hdom. set_solver.
    + eexists. split; [done|]. rewrite dom_insert. set_solver.
Qed.

Lemma fit_rows_ok (rows : list (option string)) :
  forall idx (h : Heap),
    Forall is_Some rows ->
    (forall j, (j < length rows)%nat ->
       is_Some (column (idx + j) (trace_atts tr))
       /\ is_Some (column (idx + j) (trace_defs tr))) ->
    (fit_rows tr p idx rows h).1 = Ok tt.
Proof.
  induction rows as [|row rows IH]; intros idx h Hsome Hcol; simpl; [done|].
  destruct (Hcol 0%nat) as [[xs Hxs] [ys Hys]]; [simpl; lia|].
  rewrite Nat.add_0_r in Hxs, Hys. rewrite Hxs.
  inversion Hsome as [|? ? [team ->] Hrest]; subst. rewrite Hys.
  apply IH; [done|]. intros j Hj.
  replace (S idx + j)%nat with (idx + S j)%nat by lia.
  apply Hcol. simpl. lia.
Qed.

Lemma fit_rows_spec (rows : list (option string)) :
  forall idx (h h' : Heap) (d : gmap string R),
    h !! p = Some d ->
    NoDup rows ->
    fit_rows tr p idx rows h = (Ok tt, h') ->
    exists d', h' !! p = Some d'
      /\ Forall is_Some rows
      /\ (forall j t, rows !! j = Some (Some t) ->
            exists xs ys,
              column (idx + j) (trace_atts tr) = Some xs
              /\ column (idx + j) (trace_defs tr) = Some ys
              /\ d' !! ("attack_" +:+ t) = Some (np_mean xs)
              /\ d' !! ("defence_" +:+ t) = Some (np_mean ys))
      /\ (forall k, k ∉ team_keys rows -> d' !! k = d !! k).
Proof.
  induction rows as [|row rows IH]; intros idx h h' d Hp Hnd Hfit; simpl in Hfit.
  - injection Hfit as <-. exists d. split; [done|]. split; [constructor|].
    split; [|done]. intros j t Hj. by rewrite lookup_nil in Hj.
  - destruct (column idx (trace_atts tr)) as [xs|] eqn:Hxs; [|discriminate].
    destruct row as [team|]; [|discriminate].
    destruct (column idx (trace_defs tr)) as [ys|] eqn:Hys; [|discriminate].
    apply NoDup_cons in Hnd as [Hnin Hnd].
    pose proof (dict_setitem_lookup h p ("attack_" +:+ team) (np_mean xs) d Hp)
      as Hp1.
    pose proof (dict_setitem_lookup _ p ("defence_" +:+ team) (np_mean ys) _ Hp1)
      as Hp2.
    destruct (IH (S idx) _ h' _ Hp2 Hnd Hfit) as (d' & Hd' & Hsome & Hrows & Hframe).
    assert (Hfresh : forall k, k = "attack_" +:+ team \/ k = "defence_" +:+ team ->
                               k ∉ team_keys rows).
    { intros k Hk Hin. apply elem_of_team_keys in Hin as (u & Hu & Hku).
      assert (u = team); [|by subst].
      destruct Hk as [->| ->], Hku as [Hku|Hku];
        first [by apply attack_inj in Hku | by apply defence_inj in Hku
              | by apply attack_defence in Hku
              | by symmetry in Hku; apply attack_defence in Hku]. }
    exists d'. split; [done|]. split; [constructor; [by eexists|done]|]. split.
    + intros [|j] t Hj; simpl in Hj.
      * injection Hj as <-. rewrite Nat.add_0_r. exists xs, ys.
        rewrite !Hframe by (apply Hfresh; auto).
        rewrite lookup_insert_ne by (apply not_eq_sym, attack_defence).
        by rewrite !lookup_insert_eq.
      * replace (idx + S j)%nat with (S idx + j)%nat by lia. by apply Hrows.
    + intros k Hk. simpl in Hk. rewrite Hframe by set_solver.
      rewrite !lookup_insert_ne by set_solver. done.
Qed.
End FitRows.

(** ** The invariant *)

Lemma centre_length (x : list R) : length (centre x) = length x.
Proof. unfold centre. by rewrite length_map. Qed.

Lemma column_is_Some (n idx : nat) (draws : list (list R)) :
  Forall (fun x => length x = n) draws -> (idx < n)%nat ->
  is_Some (column idx draws).
Proof.
  intros Hshape Hidx. induction Hshape as [|x draws Hx _ IH]; simpl; [by eexists|].
  destruct (lookup_lt_is_Some_2 x idx) as [v ->]; [lia|].
  destruct IH as [vs ->]. by eexists.
Qed.

Lemma trace_shape_columns (n idx : nat) (tr : MultiTrace) :
  trace_shape n tr -> (idx < n)%nat ->
  is_Some (column idx (trace_atts tr)) /\ is_Some (column idx (trace_defs tr)).
Proof.
  intros [Ha Hd] Hidx. unfold trace_atts, trace_defs.
  split; (apply (column_is_Some n); [|done]); apply Forall_map;
    (eapply Forall_impl; [eassumption|]); intros x Hx; simpl;
    by rewrite centre_length.
Qed.

Lemma fit_preserves_invariant (m m' : Model) (h h' : Heap)
    (s : result MultiTrace) (r : result unit) :
  invariant m h -> sampler_contract m s -> fit m s h = (r, m', h') ->
  invariant m' h'.
Proof.
  intros [Hnd Hn (d & Hp & Hdom & Hfitted)] Hcontract Hfit.
  destruct s as [tr|e]; simpl in Hfit; [|injection Hfit as <- <- <-; by split; eauto].
  simpl in Hcontract.
  pose proof (dict_setitem_lookup h (params m) "home" (np_mean (trace_home tr)) d Hp)
    as Hp1.
  pose proof (dict_setitem_lookup _ (params m) "intercept"
                (np_mean (trace_intercept tr)) _ Hp1) as Hp2.
  destruct (fit_rows_dom tr (params m) (teams m) 0 _ _ Hp2) as (d' & Hd' & Hdom').
  assert (Hsub : dom d' ⊆ param_keys "home" (teams m)).
  { rewrite !dom_insert_L in Hdom'. unfold param_keys in *.
    intros k Hk. apply Hdom' in Hk.
    rewrite !elem_of_union, !elem_of_singleton in *.
    destruct Hk as [[->|[->|Hk]]|Hk]; auto.
    specialize (Hdom k Hk). by rewrite !elem_of_union, !elem_of_singleton in Hdom. }
  destruct (fit_rows tr (params m) 0 (teams m) _) as [[[]|e] h3] eqn:Hrows;
    injection Hfit as <- <- <-; simpl in Hd'.
  - split; simpl; [done|done|]. exists d'. split; [done|]. split; [done|].
    intros _.
    destruct (fit_rows_spec tr (params m) (teams m) 0 _ h3 _ Hp2 Hnd Hrows)
      as (d'' & Hd'' & Hsome & Hlook & Hframe).
    assert (d'' = d') as -> by congruence.
    split; [done|]. exists tr. split; [done|]. split; [done|].
    split; [|split].
    + rewrite Hframe by (apply scalar_not_team_key; auto).
      rewrite lookup_insert_ne by done. by rewrite lookup_insert_eq.
    + rewrite Hframe by (apply scalar_not_team_key; auto).
      by rewrite lookup_insert_eq.
    + intros j t Hj. apply (Hlook j t Hj).
  - split; simpl; [done|done|]. exists d'. split; [done|]. split; [done|].
    intros Hf. destruct (Hfitted Hf) as (Hsome & _).
    assert ((fit_rows tr (params m) 0 (teams m)
               (dict_setitem (params m) "intercept" (np_mean (trace_intercept tr))
                  (dict_setitem (params m) "home" (np_mean (trace_home tr)) h))).1
            = Ok tt) as Hok.
    { apply fit_rows_ok; [done|]. intros j Hj. simpl.
      apply (trace_shape_columns (n_teams m)); [done|lia]. }
    rewrite Hrows in Hok. discriminate.
Qed.

Lemma run_invariant (log : list (result unit)) (m : Model) (h : Heap) :
  run log m h -> invariant m h.
Proof.
  induction 1 as [cpu gh ga th ta w nj dr h m h' Hinit
                 |log m h s r m' h' _ IH Hc Hfit].
  - destruct (init_facts _ _ _ _ _ _ _ _ _ _ _ Hinit)
      as (Hnd & Hn & Hf & _ & Hp).
    split; [done|done|]. exists ∅. split; [done|]. split; [set_solver|].
    intros Hf'. congruence.
  - by eapply fit_preserves_invariant.
Qed.

Lemma run_unfitted (log : list (result unit)) (m : Model) (h : Heap) :
  run log m h -> Forall (fun r => is_ok r = false) log -> fitted m = false.
Proof.
  induction 1 as [cpu gh ga th ta w nj dr h m h' Hinit
                 |log m h s r m' h' _ IH Hc Hfit]; intros Hlog.
  - by destruct (init_facts _ _ _ _ _ _ _ _ _ _ _ Hinit) as (_ & _ & Hf & _).
  - apply Forall_cons in Hlog as [Hr Hlog]. specialize (IH Hlog).
    unfold fit in Hfit. destruct s as [tr|e]; [|by injection Hfit as <- <- <-].
    destruct (fit_rows _ _ _ _ _) as [[[]|e] h3];
      injection Hfit as <- <- <-; [discriminate|done].
Qed.

(** ** Sums, means and the Poisson mass function *)

Section Numeric.
Local Open Scope R_scope.

Lemma np_sum_scale (c : R) (xs : list R) :
  np_sum (map (fun y => c * y) xs) = c * np_sum xs.
Proof. induction xs as [|x xs IH]; simpl; [lra|]. rewrite IH. lra. Qed.

Lemma goals_vector_seq (mu : R) (k : Z) :
  goals_vector mu k = map (pmf_nat mu) (seq 0 (Z.to_nat k)).
Proof.
  unfold goals_vector, np_arange. rewrite map_map. apply map_ext.
  intros i. unfold poisson_pmf, pmf_nat.
  destruct (Z.ltb_spec (Z.of_nat i) 0); [lia|]. by rewrite Nat2Z.id.
Qed.

Lemma goals_vector_length (mu : R) (k : Z) :
  length (goals_vector mu k) = Z.to_nat k.
Proof. by rewrite goals_vector_seq, length_map, length_seq. Qed.

Lemma goals_vector_lookup (mu : R) (k : Z) (i : nat) :
  (i < Z.to_nat k)%nat -> goals_vector mu k !! i = Some (pmf_nat mu i).
Proof.
  intros Hi. rewrite goals_vector_seq, list_lookup_fmap.
  by rewrite lookup_seq_lt.
Qed.

Lemma np_outer_lookup (a b : list R) (i j : nat) (x y : R) :
  a !! i = Some x -> b !! j = Some y ->
  (data (np_outer a b) !! i) ≫= (fun row => row !! j) = Some (x * y).
Proof.
  intros Ha Hb. simpl. rewrite list_lookup_fmap, Ha. simpl.
  by rewrite list_lookup_fmap, Hb.
Qed.
End Numeric.

(** ** Centred draws *)

Section Centring.
Local Open Scope R_scope.

Lemma np_sum_shift (c : R) (x : list R) :
  np_sum (map (fun v => v - c) x) = np_sum x - INR (length x) * c.
Proof.
  induction x as [|a x IH]; [simpl; lra|].
  change (np_sum (map (fun v => v - c) (a :: x)))
    with (a - c + np_sum (map (fun v => v - c) x)).
  rewrite IH. change (length (a :: x)) with (S (length x)).
  rewrite S_INR. simpl. lra.
Qed.

Lemma centre_sum (x : list R) : np_sum (centre x) = 0.
Proof.
  unfold centre. rewrite np_sum_shift. unfold np_mean.
  destruct x as [|a x]; [simpl; lra|].
  field. apply not_0_INR. simpl. lia.
Qed.

Lemma np_sum_add {A} (f g : A -> R) (l : list A) :
  np_sum (map (fun j => f j + g j) l) = np_sum (map f l) + np_sum (map g l).
Proof. induction l as [|a l IH]; simpl; [lra|]. rewrite IH. lra. Qed.

Lemma np_sum_entries (x : list R) :
  np_sum (map (fun j => nth j x 0) (seq 0 (length x))) = np_sum x.
Proof.
  induction x as [|a x IH]; [done|].
  simpl. rewrite <- seq_shift, map_map. simpl. by rewrite IH.
Qed.

Lemma column_entries (idx : nat) (draws : list (list R)) (xs : list R) :
  column idx draws = Some xs -> xs = entries idx draws.
Proof.
  revert xs. induction draws as [|x draws IH]; intros xs; simpl.
  - by intros [= <-].
  - destruct (x !! idx) as [v|] eqn:Hv; [|done].
    destruct (column idx draws) as [vs|]; [|done].
    intros [= <-]. rewrite (IH vs eq_refl).
    f_equal. symmetry. by apply nth_lookup_Some with (d := 0) in Hv.
Qed.

Lemma entries_sum (n : nat) (draws : list (list R)) :
  Forall (fun x => length x = n) draws ->
  np_sum (map (fun j => np_sum (entries j draws)) (seq 0 n))
  = np_sum (map np_sum draws).
Proof.
  induction 1 as [|x draws Hx _ IH]; simpl.
  - induction (seq 0 n) as [|j l IHl]; simpl; [done|]. rewrite IHl. lra.
  - rewrite (np_sum_add (fun j => nth j x 0) (fun j => np_sum (entries j draws))).
    rewrite IH. subst n. by rewrite np_sum_entries.
Qed.

Lemma centred_sum (stars : list (list R)) :
  np_sum (map np_sum (map centre stars)) = 0.
Proof.
  induction stars as [|x stars IH]; simpl; [done|].
  rewrite centre_sum, IH. lra.
Qed.

(** The mean over the teams of the per-team means of centred draws. *)
Lemma centred_means (n : nat) (stars : list (list R)) :
  Forall (fun x => length x = n) stars ->
  np_mean (map (fun j => np_mean (entries j (map centre stars))) (seq 0 n)) = 0.
Proof.
  intros Hshape. unfold np_mean at 1.
  assert (np_sum (map (fun j => np_mean (entries j (map centre stars))) (seq 0 n)) = 0)
    as ->; [|unfold Rdiv; lra].
  unfold np_mean.
  rewrite (map_ext _ (fun j => / INR (length stars)
                               * np_sum (entries j (map centre stars)))).
  - rewrite <- (map_map (fun j => np_sum (entries j (map centre stars)))
                        (fun y => / INR (length stars) * y)).
    rewrite np_sum_scale, (entries_sum n), centred_sum; [lra|].
    apply Forall_map. eapply Forall_impl; [exact Hshape|].
    intros x Hx. simpl. by rewrite centre_length.
  - intros j. unfold entries. rewrite !length_map. unfold Rdiv. lra.
Qed.
End Centring.

(** ** Fitted models *)

Lemma fitted_model_stores (m : Model) (h : Heap) :
  fitted_model m h ->
  NoDup (teams m) /\ n_teams m = length (teams m) /\ Forall is_Some (teams m)
  /\ exists d tr,
       h !! params m = Some d
       /\ dom d ⊆ param_keys "home" (teams m)
       /\ trace m = Some tr
       /\ trace_shape (n_teams m) tr
       /\ stores tr (teams m) d.
Proof.
  intros [Hf [log Hrun]].
  destruct (run_invariant log m h Hrun) as [Hnd Hn (d & Hp & Hdom & Hfit)].
  destruct (Hfit Hf) as (Hsome & tr & Htr & Hshape & Hst).
  repeat (split; [done|]). by exists d, tr.
Qed.

Lemma stores_known_team (tr : MultiTrace) (rows : list (option string))
    (d : gmap string R) (t : string) :
  stores tr rows d -> Some t ∈ rows ->
  exists a b, d !! ("attack_" +:+ t) = Some a /\ d !! ("defence_" +:+ t) = Some b.
Proof.
  intros (_ & _ & Hrows) Hin. apply list_elem_of_lookup in Hin as [j Hj].
  destruct (Hrows j t Hj) as (xs & ys & _ & _ & Ha & Hb). eauto.
Qed.

(** What [predict] evaluates to on a fitted model and two known teams. *)
Lemma predict_fitted (m : Model) (h : Heap) (home_team away_team : string) :
  fitted_model m h -> Some home_team ∈ teams m -> Some away_team ∈ teams m ->
  exists home intercept atts_home atts_away defs_home defs_away,
    dict_getitem (params m) "home" h = Ok home
    /\ dict_getitem (params m) "intercept" h = Ok intercept
    /\ dict_getitem (params m) ("attack_" +:+ home_team) h = Ok atts_home
    /\ dict_getitem (params m) ("attack_" +:+ away_team) h = Ok atts_away
    /\ dict_getitem (params m) ("defence_" +:+ home_team) h = Ok defs_home
    /\ dict_getitem (params m) ("defence_" +:+ away_team) h = Ok defs_away
    /\ forall max_goals,
         predict m home_team away_team max_goals h
         = Ok (mk_grid
                 (np_outer
                    (goals_vector (exp (intercept + home + atts_home + defs_away)) max_goals)
                    (goals_vector (exp (intercept + atts_away + defs_home)) max_goals))
                 (exp (intercept + home + atts_home + defs_away))
                 (exp (intercept + atts_away + defs_home))).
Proof.
  intros Hfm Hhome Haway.
  destruct (fitted_model_stores m h Hfm)
    as (_ & _ & _ & d & tr & Hp & _ & _ & _ & Hst).
  destruct Hfm as [Hf _].
  destruct (stores_known_team tr _ d home_team Hst Hhome) as (ah & dh & Hah & Hdh).
  destruct (stores_known_team tr _ d away_team Hst Haway) as (aa & da & Haa & Hda).
  destruct Hst as (Hhm & Hic & _).
  exists (np_mean (trace_home tr)), (np_mean (trace_intercept tr)), ah, aa, dh, da.
  repeat (split; [by eapply dict_getitem_ok|]).
  intros max_goals. unfold predict. rewrite Hf. simpl.
  rewrite !bool_decide_eq_true_2 by done. simpl.
  rewrite (dict_getitem_ok h _ _ d _ Hp Hhm), (dict_getitem_ok h _ _ d _ Hp Hic).
  rewrite (dict_getitem_ok h _ _ d _ Hp Hah), (dict_getitem_ok h _ _ d _ Hp Haa).
  rewrite (dict_getitem_ok h _ _ d _ Hp Hdh), (dict_getitem_ok h _ _ d _ Hp Hda).
  reflexivity.
Qed.

Lemma example_init :
  __init__ (Some 8)
    [PyInt 1; PyInt 0; PyInt 2; PyInt 1] [PyInt 0; PyInt 0; PyInt 1; PyInt 3]
    ["B"; "A"; "C"; "A"] ["A"; "C"; "B"; "B"]
    (WScalar 1) None 200 []
  = Ok (Example.model0, Example.heap0).
Proof. vm_compute. reflexivity. Qed.

Lemma example_run0 : run [] Example.model0 Example.heap0.
Proof. exact (run_init _ _ _ _ _ _ _ _ _ _ _ example_init). Qed.

Lemma example_fit :
  fit Example.model0 (Ok Example.samples) Example.heap0
  = (Ok tt, Example.model1, Example.heap1).
Proof. vm_compute. reflexivity. Qed.

Lemma example_fitted : fitted_model Example.model1 Example.heap1.
Proof.
  split; [vm_compute; reflexivity|]. exists [Ok tt].
  apply (run_fit [] Example.model0 Example.heap0 (Ok Example.samples));
    [exact example_run0| |exact example_fit].
  split; repeat constructor.
Qed.

Lemma example_known (t : string) :
  t = "A" \/ t = "B" \/ t = "C" -> Some t ∈ teams Example.model1.
Proof. intros [->|[->| ->]]; vm_compute; set_solver. Qed.

(** ** The claims *)



(** C5.  A model on which no [fit] call has completed, whether freshly
    constructed or after any number of failed [fit] calls, rejects
    [predict] and [get_params] with the not-fitted error. *)
Theorem unfitted_rejection (log : list (result unit)) (m : Model) (h : Heap) :
  run log m h -> Forall (fun r => is_ok r = false) log ->
  (forall home_team away_team max_goals,
      predict m home_team away_team max_goals h
      = Raise (ValueError not_fitted_predict_msg))
  /\ get_params m = Raise (ValueError not_fitted_params_msg).
Proof.
  intros Hrun Hlog. pose proof (run_unfitted log m h Hrun Hlog) as Hf.
  unfold predict, get_params. rewrite Hf. by split.
Qed.

Lemma unfitted_rejection_witness :
  run [] Example.model0 Example.heap0
  /\ Forall (fun r : result unit => is_ok r = false) []
  /\ predict Example.model0 "A" "B" 15 Example.heap0
     = Raise (ValueError not_fitted_predict_msg)
  /\ get_params Example.model0 = Raise (ValueError not_fitted_params_msg).
Proof.
  split; [exact example_run0|]. split; [constructor|].
  destruct (unfitted_rejection [] Example.model0 Example.heap0 example_run0
              (Forall_nil_2 _)) as [Hp Hg].
  split; [apply Hp|exact Hg].
Defined.

(** C9.  When the sampling step of [fit] raises on an unfitted model, [fit]
    propagates the exception and changes neither the model object nor the
    parameter dict: the fitted flag is still false, and [predict] and
    [get_params] on the resulting state still raise the not-fitted
    error. *)
Theorem fit_sampling_failure (m : Model) (h : Heap) (e : exception) :
  fitted m = false ->
  exists m' h',
    fit m (Raise e) h = (Raise e, m', h')
    /\ m' = m /\ h' = h
    /\ fitted m' = false
    /\ (forall home_team away_team max_goals,
          predict m' home_team away_team max_goals h'
          = Raise (ValueError not_fitted_predict_msg))
    /\ get_params m' = Raise (ValueError not_fitted_params_msg).
Proof.
  intros Hf. exists m, h. unfold predict, get_params. rewrite Hf. by repeat split.
Qed.

Lemma fit_sampling_failure_witness :
  fitted Example.model0 = false
  /\ fit Example.model0 (Raise (LibraryError "SamplingError")) Example.heap0
     = (Raise (LibraryError "SamplingError"), Example.model0, Example.heap0).
Proof.
  split; [reflexivity|].
  destruct (fit_sampling_failure Example.model0 Example.heap0
              (LibraryError "SamplingError") eq_refl)
    as (m' & h' & Hfit & -> & -> & _).
  exact Hfit.
Defined.

(** C10.  [predict] does not validate [max_goals]: on a fitted model and
    two known teams, a zero or negative [max_goals] raises nothing; both
    probability vectors are empty and the grid is the 0 x 0 matrix. *)
Theorem predict_nonpositive_max_goals (m : Model) (h : Heap)
    (home_team away_team : string) (max_goals : Z) :
  fitted_model m h -> Some home_team ∈ teams m -> Some away_team ∈ teams m ->
  max_goals <= 0 ->
  (forall rate, goals_vector rate max_goals = [])
  /\ exists g, predict m home_team away_team max_goals h = Ok g
               /\ grid g = np_outer [] []
               /\ shape (grid g) = (0%nat, 0%nat)
               /\ data (grid g) = [].
Proof.
  intros Hfm Hhome Haway Hk.
  assert (Hvec : forall rate, goals_vector rate max_goals = []).
  { intros rate. unfold goals_vector, np_arange.
    by replace (Z.to_nat max_goals) with 0%nat by lia. }
  split; [done|].
  destruct (predict_fitted m h home_team away_team Hfm Hhome Haway)
    as (hm & ic & ah & aa & dh & da & _ & _ & _ & _ & _ & _ & Hpred).
  eexists. split; [apply Hpred|]. simpl. rewrite !Hvec. by repeat split.
Qed.

Lemma predict_nonpositive_max_goals_witness :
  fitted_model Example.model1 Example.heap1
  /\ Some "C" ∈ teams Example.model1
  /\ Some "A" ∈ teams Example.model1
  /\ -3 <= 0
  /\ exists g, predict Example.model1 "C" "A" (-3) Example.heap1 = Ok g
               /\ shape (grid g) = (0%nat, 0%nat).
Proof.
  split; [exact example_fitted|].
  split; [apply example_known; auto|].
  split; [apply example_known; auto|].
  split; [lia|].
  destruct (predict_nonpositive_max_goals Example.model1 Example.heap1 "C" "A" (-3)
              example_fitted
              (example_known "C" (or_intror (or_intror eq_refl)))
              (example_known "A" (or_introl eq_refl)) ltac:(lia))
    as (_ & g & Hg & _ & Hs & _).
  exists g. split; [exact Hg|exact Hs].
Defined.




(** C2, as stated, fails: the mapping of a fitted model has no key
    [home_advantage], so its key set is not the one the claim gives. *)
Lemma get_params_keys_counterexample :
  fitted_model Example.model1 Example.heap1
  /\ exists d : gmap string R,
       get_params Example.model1 = Ok (params Example.model1)
       /\ Example.heap1 !! params Example.model1 = Some d
       /\ d !! "home_advantage" = None
       /\ dom d <> param_keys "home_advantage" (teams Example.model1).
Proof.
  split; [exact example_fitted|].
  destruct (fitted_model_stores _ _ example_fitted)
    as (_ & _ & _ & d & tr & Hp & Hdom & _).
  exists d. split; [reflexivity|]. split; [exact Hp|].
  assert (d !! "home_advantage" = None) as Hnone.
  { apply not_elem_of_dom. intros Hin. apply Hdom in Hin.
    unfold param_keys in Hin. rewrite !elem_of_union, !elem_of_singleton in Hin.
    destruct Hin as [[Hin|Hin]|Hin]; [discriminate|discriminate|].
    revert Hin. apply scalar_not_team_key. auto. }
  split; [exact Hnone|]. intros Heq.
  apply not_elem_of_dom in Hnone. apply Hnone. rewrite Heq.
  unfold param_keys. rewrite !elem_of_union, !elem_of_singleton. auto.
Qed.

(** C2, amended.  On a fitted model [get_params] returns the parameter
    dict, whose key set is exactly [home], [intercept] and, for every team
    name of the team table, [attack_<name>] and [defence_<name>]; the value
    under [home] and [intercept] is the mean of that variable's samples,
    and the values of the team in row [j] are the means of entry [j] of the
    sampled [atts] and [defs]. *)
Theorem get_params_keys (m : Model) (h : Heap) :
  fitted_model m h ->
  exists (d : gmap string R) (tr : MultiTrace),
    get_params m = Ok (params m)
    /\ h !! params m = Some d
    /\ trace m = Some tr
    /\ Forall is_Some (teams m)
    /\ dom d = param_keys "home" (teams m)
    /\ d !! "home" = Some (np_mean (trace_home tr))
    /\ d !! "intercept" = Some (np_mean (trace_intercept tr))
    /\ forall j t, teams m !! j = Some (Some t) ->
         exists xs ys,
           column j (trace_atts tr) = Some xs
           /\ column j (trace_defs tr) = Some ys
           /\ d !! ("attack_" +:+ t) = Some (np_mean xs)
           /\ d !! ("defence_" +:+ t) = Some (np_mean ys).
Proof.
  intros Hfm.
  destruct (fitted_model_stores m h Hfm)
    as (_ & _ & Hsome & d & tr & Hp & Hdom & Htr & _ & Hst).
  destruct Hfm as [Hf _].
  exists d, tr. unfold get_params. rewrite Hf. simpl.
  repeat (split; [done|]).
  destruct Hst as (Hhm & Hic & Hrows).
  split; [|by repeat split].
  apply set_eq. intros k. split; [apply Hdom|].
  unfold param_keys. rewrite !elem_of_union, !elem_of_singleton.
  intros [[->| ->]|Hk]; [by apply elem_of_dom; eexists..|].
  apply elem_of_team_keys in Hk as (t & Ht & Hk).
  apply list_elem_of_lookup in Ht as [j Hj].
  destruct (Hrows j t Hj) as (xs & ys & _ & _ & Ha & Hb).
  destruct Hk as [->| ->]; apply elem_of_dom; by eexists.
Qed.

Lemma get_params_keys_witness :
  fitted_model Example.model1 Example.heap1
  /\ exists d : gmap string R,
       Example.heap1 !! params Example.model1 = Some d
       /\ dom d = param_keys "home" (teams Example.model1).
Proof.
  split; [exact example_fitted|].
  destruct (get_params_keys Example.model1 Example.heap1 example_fitted)
    as (d & tr & _ & Hp & _ & _ & Hdom & _).
  exists d. split; [exact Hp|exact Hdom].
Defined.

(** C8, as stated, fails: a write through the mapping [get_params]
    returned changes the parameter the model reads and the rate the next
    [predict] computes. *)
Lemma get_params_snapshot_counterexample :
  fitted_model Example.model1 Example.heap1
  /\ exists p,
       get_params Example.model1 = Ok p
       /\ dict_getitem (params Example.model1) "home" Example.heap1 = Ok 2%R
       /\ dict_getitem (params Example.model1) "home"
            (dict_setitem p "home" 7%R Example.heap1) = Ok 7%R
       /\ home_goal_expectation
            <$> (match predict Example.model1 "A" "B" 5
                         (dict_setitem p "home" 7%R Example.heap1) with
                 | Ok g => Some g | Raise _ => None end)
          <> home_goal_expectation
               <$> (match predict Example.model1 "A" "B" 5 Example.heap1 with
                    | Ok g => Some g | Raise _ => None end).
Proof.
  split; [exact example_fitted|].
  exists 0%nat. split; [reflexivity|]. split; [|split].
  - vm_compute. f_equal. lra.
  - vm_compute. reflexivity.
  - vm_compute. intros Heq. injection Heq as Heq.
    apply exp_inv in Heq. lra.
Qed.

Lemma lookup_insert_keeps (d : gmap string R) (k key : string) (v : R) :
  is_Some (d !! key) -> is_Some (<[k := v]> d !! key).
Proof. intros Hkey. apply lookup_insert_is_Some'. by right. Qed.

(** C8, amended.  On a fitted model [get_params] returns the model's own
    parameter dict and changes nothing.  A write [d[k] = v] through the
    returned mapping is what the model reads afterwards, and a later
    [predict] on two known teams computes its two rates and its grid from
    the mapping as written: after [d["home"] = v] the home rate is
    [exp(intercept + v + attack[home] + defence[away])]. *)
Theorem get_params_live_view (m : Model) (h : Heap)
    (home_team away_team : string) (max_goals : Z) (k : string) (v : R) :
  fitted_model m h -> Some home_team ∈ teams m -> Some away_team ∈ teams m ->
  exists p (d : gmap string R)
         home intercept atts_home atts_away defs_home defs_away g,
    get_params m = Ok p
    /\ p = params m
    /\ h !! p = Some d
    /\ dict_getitem (params m) k (dict_setitem p k v h) = Ok v
    /\ <[k := v]> d !! "home" = Some home
    /\ <[k := v]> d !! "intercept" = Some intercept
    /\ <[k := v]> d !! ("attack_" +:+ home_team) = Some atts_home
    /\ <[k := v]> d !! ("attack_" +:+ away_team) = Some atts_away
    /\ <[k := v]> d !! ("defence_" +:+ home_team) = Some defs_home
    /\ <[k := v]> d !! ("defence_" +:+ away_team) = Some defs_away
    /\ predict m home_team away_team max_goals (dict_setitem p k v h) = Ok g
    /\ home_goal_expectation g = exp (intercept + home + atts_home + defs_away)
    /\ away_goal_expectation g = exp (intercept + atts_away + defs_home)
    /\ grid g = np_outer (goals_vector (home_goal_expectation g) max_goals)
                         (goals_vector (away_goal_expectation g) max_goals)
    /\ (k = "home" ->
        home_goal_expectation g = exp (intercept + v + atts_home + defs_away)).
Proof.
  intros Hfm Hhome Haway.
  destruct (fitted_model_stores m h Hfm)
    as (_ & _ & _ & d & tr & Hp & _ & _ & _ & Hst).
  destruct Hfm as [Hf _].
  destruct (stores_known_team tr _ d home_team Hst Hhome) as (ah & dh & Hah & Hdh).
  destruct (stores_known_team tr _ d away_team Hst Haway) as (aa & da & Haa & Hda).
  destruct Hst as (Hhm & Hic & _).
  destruct (lookup_insert_keeps d k "home" v (mk_is_Some _ _ Hhm)) as [hm' Hhm'].
  destruct (lookup_insert_keeps d k "intercept" v (mk_is_Some _ _ Hic)) as [ic' Hic'].
  destruct (lookup_insert_keeps d k _ v (mk_is_Some _ _ Hah)) as [ah' Hah'].
  destruct (lookup_insert_keeps d k _ v (mk_is_Some _ _ Haa)) as [aa' Haa'].
  destruct (lookup_insert_keeps d k _ v (mk_is_Some _ _ Hdh)) as [dh' Hdh'].
  destruct (lookup_insert_keeps d k _ v (mk_is_Some _ _ Hda)) as [da' Hda'].
  pose proof (dict_setitem_lookup h (params m) k v d Hp) as Hp'.
  exists (params m), d, hm', ic', ah', aa', dh', da'. eexists.
  split; [by unfold get_params; rewrite Hf|]. split; [done|]. split; [done|].
  split; [by apply (dict_getitem_ok _ _ _ _ _ Hp'), lookup_insert_eq|].
  repeat (split; [done|]).
  split.
  { unfold predict. rewrite Hf. simpl.
    rewrite !bool_decide_eq_true_2 by done. simpl.
    rewrite (dict_getitem_ok _ _ _ _ _ Hp' Hhm'), (dict_getitem_ok _ _ _ _ _ Hp' Hic').
    rewrite (dict_getitem_ok _ _ _ _ _ Hp' Hah'), (dict_getitem_ok _ _ _ _ _ Hp' Haa').
    rewrite (dict_getitem_ok _ _ _ _ _ Hp' Hdh'), (dict_getitem_ok _ _ _ _ _ Hp' Hda').
    reflexivity. }
  cbn [home_goal_expectation away_goal_expectation grid].
  repeat (split; [reflexivity|]).
  intros ->. rewrite lookup_insert_eq in Hhm'. by injection Hhm' as <-.
Qed.

Lemma get_params_live_view_witness :
  fitted_model Example.model1 Example.heap1
  /\ Some "A" ∈ teams Example.model1
  /\ Some "B" ∈ teams Example.model1
  /\ exists p intercept atts_home defs_away g,
       get_params Example.model1 = Ok p
       /\ predict Example.model1 "A" "B" 5 (dict_setitem p "home" 7%R Example.heap1)
          = Ok g
       /\ home_goal_expectation g = exp (intercept + 7 + atts_home + defs_away).
Proof.
  split; [exact example_fitted|].
  split; [apply example_known; auto|].
  split; [apply example_known; auto|].
  destruct (get_params_live_view Example.model1 Example.heap1 "A" "B" 5 "home" 7%R
              example_fitted
              (example_known "A" (or_introl eq_refl))
              (example_known "B" (or_intror (or_introl eq_refl))))
    as (p & d & hm & ic & ah & aa & dh & da & g & Hg & _ & _ & _ & _ & _ & _ & _
        & _ & _ & Hpred & _ & _ & _ & Hhome).
  exists p, ic, ah, da, g. split; [exact Hg|]. split; [exact Hpred|].
  exact (Hhome eq_refl).
Defined.

(** ** Construction *)

Lemma pad_full {A} (N : nat) (l : list A) : length l = N -> pad N l = map Some l.
Proof.
  intros <-. unfold pad. apply list_eq. intros i. rewrite !list_lookup_fmap.
  destruct (decide (i < length l)%nat) as [Hlt|Hge].
  - rewrite lookup_seq_lt by done. simpl.
    destruct (lookup_lt_is_Some_2 l i Hlt) as [x ->]. done.
  - rewrite lookup_seq_ge by lia. by rewrite lookup_ge_None_2 by lia.
Qed.

Lemma astype_int_full (l : list pynum) :
  Forall (fun x => is_Some (int_of x)) l ->
  astype_int (map Some l) = Ok (omap int_of l) /\ length (omap int_of l) = length l.
Proof.
  induction 1 as [|x l [z Hz] _ [IH Hlen]]; [done|].
  simpl. rewrite Hz. unfold int_of in Hz. simpl in Hz.
  destruct (bind (py_int x) _) as [z'|]; [|discriminate].
  injection Hz as ->. rewrite IH. simpl. split; [done|].
  f_equal. exact Hlen.
Qed.

Lemma assign_weights_fit (N : nat) (w : weights_arg) :
  weights_fit N w ->
  exists ws, assign_weights N w = Ok ws /\ length ws = N.
Proof.
  destruct w as [x|ws]; simpl.
  - intros _. eexists. split; [done|]. by rewrite length_replicate.
  - intros <-. exists ws. by rewrite Nat.eqb_refl.
Qed.

Lemma build_fixtures_goals (tms : list (option string)) (gh ga : list Z)
    (th ta : list (option string)) (ws : list Q) :
  length ga = length gh -> length th = length gh -> length ta = length gh ->
  length ws = length gh ->
  map goals_home (build_fixtures tms gh ga th ta ws) = gh
  /\ map goals_away (build_fixtures tms gh ga th ta ws) = ga
  /\ map weights (build_fixtures tms gh ga th ta ws) = ws.
Proof.
  revert ga th ta ws.
  induction gh as [|g1 gh IH]; intros [|g2 ga] [|t1 th] [|t2 ta] [|w ws];
    simpl; try done.
  intros [= H1] [= H2] [= H3] [= H4].
  destruct (IH ga th ta ws H1 H2 H3 H4) as (-> & -> & ->). done.
Qed.




(** ** The centring invariant *)

Lemma stored_attack (m : Model) (h : Heap) (d : gmap string R) (tr : MultiTrace) :
  h !! params m = Some d -> n_teams m = length (teams m) ->
  Forall is_Some (teams m) -> stores tr (teams m) d ->
  stored "attack_" m h
  = map (fun j => Some (np_mean (entries j (trace_atts tr)))) (seq 0 (n_teams m)).
Proof.
  intros Hp Hn Hsome (_ & _ & Hrows). unfold stored.
  apply list_eq. intros j. rewrite !list_lookup_fmap.
  destruct (teams m !! j) as [row|] eqn:Hj; simpl.
  - pose proof (lookup_lt_Some _ _ _ Hj) as Hlt.
    rewrite lookup_seq_lt by lia. simpl.
    destruct (proj1 (Forall_lookup _ _) Hsome j row Hj) as [t ->].
    destruct (Hrows j t Hj) as (xs & ys & Hxs & _ & Ha & _).
    simpl. rewrite Hp. simpl. rewrite Ha.
    by rewrite (column_entries _ _ _ Hxs).
  - apply lookup_ge_None_1 in Hj. by rewrite lookup_seq_ge by lia.
Qed.

Lemma stored_defence (m : Model) (h : Heap) (d : gmap string R) (tr : MultiTrace) :
  h !! params m = Some d -> n_teams m = length (teams m) ->
  Forall is_Some (teams m) -> stores tr (teams m) d ->
  stored "defence_" m h
  = map (fun j => Some (np_mean (entries j (trace_defs tr)))) (seq 0 (n_teams m)).
Proof.
  intros Hp Hn Hsome (_ & _ & Hrows). unfold stored.
  apply list_eq. intros j. rewrite !list_lookup_fmap.
  destruct (teams m !! j) as [row|] eqn:Hj; simpl.
  - pose proof (lookup_lt_Some _ _ _ Hj) as Hlt.
    rewrite lookup_seq_lt by lia. simpl.
    destruct (proj1 (Forall_lookup _ _) Hsome j row Hj) as [t ->].
    destruct (Hrows j t Hj) as (xs & ys & _ & Hys & _ & Hb).
    simpl. rewrite Hp. simpl. rewrite Hb.
    by rewrite (column_entries _ _ _ Hys).
  - apply lookup_ge_None_1 in Hj. by rewrite lookup_seq_ge by lia.
Qed.

(** C6.  On a fitted model with at least one team and at least one pooled
    sample, every team has a stored attack and a stored defence parameter,
    and in exact real arithmetic the mean of the stored attack parameters
    over the teams is 0, as is the mean of the stored defence parameters:
    both are within 1e-6 of 0. *)
Theorem centring_invariant (m : Model) (h : Heap) (tr : MultiTrace) :
  fitted_model m h ->
  teams m <> [] ->
  trace m = Some tr ->
  trace_atts_star tr <> [] -> trace_def_star tr <> [] ->
  exists atts defs : list R,
    stored "attack_" m h = map Some atts
    /\ stored "defence_" m h = map Some defs
    /\ length atts = n_teams m
    /\ length defs = n_teams m
    /\ np_mean atts = 0%R
    /\ np_mean defs = 0%R
    /\ (Rabs (np_mean atts) <= / 1000000)%R
    /\ (Rabs (np_mean defs) <= / 1000000)%R.
Proof.
  intros Hfm _ Htr _ _.
  destruct (fitted_model_stores m h Hfm)
    as (_ & Hn & Hsome & d & tr' & Hp & _ & Htr' & [Hsa Hsd] & Hst).
  assert (tr' = tr) as -> by congruence.
  exists (map (fun j => np_mean (entries j (trace_atts tr))) (seq 0 (n_teams m))),
         (map (fun j => np_mean (entries j (trace_defs tr))) (seq 0 (n_teams m))).
  rewrite (stored_attack m h d tr Hp Hn Hsome Hst).
  rewrite (stored_defence m h d tr Hp Hn Hsome Hst).
  rewrite !map_map, !length_map, !length_seq.
  unfold trace_atts, trace_defs.
  rewrite (centred_means _ _ Hsa), (centred_means _ _ Hsd), Rabs_R0.
  repeat (split; [reflexivity|]).
  split; lra.
Qed.

Lemma centring_invariant_witness :
  fitted_model Example.model1 Example.heap1
  /\ teams Example.model1 <> []
  /\ trace Example.model1 = Some Example.samples
  /\ trace_atts_star Example.samples <> []
  /\ trace_def_star Example.samples <> []
  /\ exists atts defs : list R,
       stored "attack_" Example.model1 Example.heap1 = map Some atts
       /\ stored "defence_" Example.model1 Example.heap1 = map Some defs
       /\ np_mean atts = 0%R
       /\ np_mean defs = 0%R.
Proof.
  assert (teams Example.model1 <> []) as H1 by (vm_compute; discriminate).
  assert (trace Example.model1 = Some Example.samples) as H2 by reflexivity.
  assert (trace_atts_star Example.samples <> []) as H3 by discriminate.
  assert (trace_def_star Example.samples <> []) as H4 by discriminate.
  repeat (split; [assumption || exact example_fitted|]).
  destruct (centring_invariant Example.model1 Example.heap1 Example.samples
              example_fitted H1 H2 H3 H4)
    as (atts & defs & Ha & Hd & _ & _ & Hma & Hmd & _).
  exists atts, defs. repeat split; assumption.
Defined.

(** ** More on construction: the team table and the fixture indices *)

Lemma init_inv cpu gh ga th ta w nj dr h m h' :
  __init__ cpu gh ga th ta w nj dr h = Ok (m, h') ->
  exists c1 c2 ws,
    astype_int (pad (frame_rows gh ga th ta) gh) = Ok c1
    /\ astype_int (pad (frame_rows gh ga th ta) ga) = Ok c2
    /\ assign_weights (frame_rows gh ga th ta) w = Ok ws
    /\ teams m = sort_values (drop_duplicates (pad (frame_rows gh ga th ta) th))
    /\ n_teams m = length (drop_duplicates (pad (frame_rows gh ga th ta) th))
    /\ fixtures m
       = build_fixtures (teams m) c1 c2
           (pad (frame_rows gh ga th ta) th) (pad (frame_rows gh ga th ta) ta) ws
    /\ params m = length h
    /\ h' = h ++ [∅]
    /\ draws m = dr
    /\ n_jobs m = match nj with
                  | None => cpu
                  | Some j => if (j =? -1)%Z then cpu
                              else if (j =? 0)%Z then Some 1%Z else Some j
                  end.
Proof.
  unfold __init__. intros Hinit.
  destruct (astype_int (pad _ gh)) as [c1|]; [simpl in Hinit|discriminate].
  destruct (astype_int (pad _ ga)) as [c2|]; [simpl in Hinit|discriminate].
  destruct (assign_weights _ _) as [ws|]; [simpl in Hinit|discriminate].
  injection Hinit as <- <-. exists c1, c2, ws. simpl. by repeat split.
Qed.

Lemma insert_sorted_Sorted (x : option string) (l : list (option string)) :
  Sorted (fun a b => team_leb a b = true) l ->
  Sorted (fun a b => team_leb a b = true) (insert_sorted x l).
Proof.
  assert (Htotal : forall a b, team_leb a b = false -> team_leb b a = true).
  { intros [a|] [b|]; simpl; try done.
    intros Hab. by destruct (String.leb_total a b) as [Hle|Hle]; [congruence|]. }
  induction l as [|y l IH]; intros Hs; simpl.
  - by repeat constructor.
  - destruct (team_leb x y) eqn:Hxy.
    + constructor; [done|]. by constructor.
    + apply Sorted_inv in Hs as [Hs Hhd]. constructor; [by apply IH|].
      destruct l as [|z l]; simpl.
      * constructor. by apply Htotal.
      * destruct (team_leb x z); constructor; [by apply Htotal|].
        by inversion Hhd.
Qed.

Lemma sort_values_Sorted (l : list (option string)) :
  Sorted (fun a b => team_leb a b = true) (sort_values l).
Proof.
  induction l as [|x l IH]; simpl; [constructor|]. by apply insert_sorted_Sorted.
Qed.

Lemma elem_of_pad {A} (N : nat) (l : list A) (x : A) :
  (length l <= N)%nat -> (Some x ∈ pad N l <-> x ∈ l).
Proof.
  intros Hlen. unfold pad. rewrite list_elem_of_fmap. split.
  - intros (i & Hi & _). symmetry in Hi. by apply list_elem_of_lookup_2 in Hi.
  - intros Hx. apply list_elem_of_lookup in Hx as [i Hi]. exists i.
    split; [done|]. apply elem_of_seq. apply lookup_lt_Some in Hi. lia.
Qed.

Lemma frame_rows_ge {A B} (gh ga : list A) (th ta : list B) :
  (length gh <= frame_rows gh ga th ta
   /\ length ga <= frame_rows gh ga th ta
   /\ length th <= frame_rows gh ga th ta
   /\ length ta <= frame_rows gh ga th ta)%nat.
Proof. unfold frame_rows. lia. Qed.

Lemma elem_of_drop_duplicates {A} `{EqDecision A} (l : list A) (x : A) :
  x ∈ drop_duplicates l <-> x ∈ l.
Proof.
  unfold drop_duplicates. destruct (unique_from_spec l []) as [_ ->].
  rewrite elem_of_nil. tauto.
Qed.

Lemma team_index_Some (tms : list (option string)) (t : option string) (i : nat) :
  team_index tms t = Some i -> tms !! i = Some t.
Proof.
  revert i. induction tms as [|x tms IH]; intros i; simpl; [done|].
  destruct (decide (x = t)) as [->|Hne]; [by intros [= <-]|].
  destruct (team_index tms t) as [j|]; [|done]. intros [= <-]. by apply IH.
Qed.

Lemma team_index_None (tms : list (option string)) (t : option string) :
  team_index tms t = None <-> t ∉ tms.
Proof.
  induction tms as [|x tms IH]; simpl.
  - split; [intros _; apply not_elem_of_nil|done].
  - rewrite not_elem_of_cons. destruct (decide (x = t)) as [->|Hne].
    + split; [done|]. intros [Hne _]. done.
    + destruct (team_index tms t) as [j|]; simpl.
      * split; [done|]. intros [_ Hnin]. by apply IH in Hnin.
      * split; [|done]. intros _. split; [done|]. by apply IH.
Qed.

(** X1.  The team table a successful construction leaves is in ascending
    order of name (a missing name last), has no duplicate, and [n_teams]
    is its number of rows. *)
Theorem init_team_table cpu gh ga th ta w nj dr h m h' :
  __init__ cpu gh ga th ta w nj dr h = Ok (m, h') ->
  Sorted (fun a b => team_leb a b = true) (teams m)
  /\ NoDup (teams m)
  /\ n_teams m = length (teams m).
Proof.
  intros Hinit.
  destruct (init_inv _ _ _ _ _ _ _ _ _ _ _ Hinit)
    as (c1 & c2 & ws & _ & _ & _ & Ht & Hn & _).
  rewrite Ht, Hn. split; [apply sort_values_Sorted|].
  split; [|by rewrite sort_values_perm].
  rewrite sort_values_perm. apply (unique_from_spec _ []).
Qed.

Lemma init_team_table_witness :
  Sorted (fun a b => team_leb a b = true) (teams Example.model0)
  /\ NoDup (teams Example.model0)
  /\ n_teams Example.model0 = length (teams Example.model0).
Proof. exact (init_team_table _ _ _ _ _ _ _ _ _ _ _ example_init). Defined.

(** X2.  After a successful construction the known teams are exactly the
    names that occur in [teams_home]: a name that occurs only in
    [teams_away] has no row in the team table. *)
Theorem init_known_teams cpu gh ga th ta w nj dr h m h' (t : string) :
  __init__ cpu gh ga th ta w nj dr h = Ok (m, h') ->
  (Some t ∈ teams m <-> t ∈ th).
Proof.
  intros Hinit.
  destruct (init_inv _ _ _ _ _ _ _ _ _ _ _ Hinit)
    as (c1 & c2 & ws & _ & _ & _ & Ht & _).
  rewrite Ht, sort_values_perm, elem_of_drop_duplicates.
  apply elem_of_pad. apply (frame_rows_ge gh ga th ta).
Qed.

Lemma init_known_teams_witness :
  (Some "B" ∈ teams Example.model0 <-> "B" ∈ ["B"; "A"; "C"; "A"]).
Proof. exact (init_known_teams _ _ _ _ _ _ _ _ _ _ _ "B" example_init). Defined.

Lemma astype_int_cells (col : list (option pynum)) :
  is_ok (astype_int col) = true <->
  Forall (fun c => is_ok (astype_int_cell c) = true) col.
Proof.
  induction col as [|c col IH]; simpl; [by split; [constructor|]|].
  rewrite Forall_cons, <- IH.
  destruct (astype_int_cell c) as [z|]; simpl; [|by split; [|intros []]].
  destruct (astype_int col) as [zs|]; simpl; by split; [|intros []].
Qed.

Lemma astype_int_length (col : list (option pynum)) (zs : list Z) :
  astype_int col = Ok zs -> length zs = length col.
Proof.
  revert zs. induction col as [|c col IH]; intros zs; simpl; [by intros [= <-]|].
  destruct (astype_int_cell c) as [z|]; simpl; [|done].
  destruct (astype_int col) as [zs'|]; simpl; [|done].
  intros [= <-]. simpl. f_equal. by apply IH.
Qed.

Lemma pad_length {A} (N : nat) (l : list A) : length (pad N l) = N.
Proof. unfold pad. by rewrite length_map, length_seq. Qed.

Lemma astype_int_pad (N : nat) (l : list pynum) :
  (length l <= N)%nat ->
  (is_ok (astype_int (pad N l)) = true
   <-> length l = N /\ Forall (fun x => is_Some (int_of x)) l).
Proof.
  intros Hlen. split.
  - intros Hok. apply astype_int_cells in Hok.
    assert (length l = N) as Heq.
    { destruct (decide (length l = N)) as [|Hne]; [done|].
      assert (pad N l !! length l = Some None) as Hnone.
      { unfold pad. rewrite list_lookup_fmap, lookup_seq_lt by lia. simpl.
        by rewrite lookup_ge_None_2. }
      by pose proof (proj1 (Forall_lookup _ _) Hok _ _ Hnone). }
    split; [done|]. rewrite (pad_full N l Heq) in Hok.
    apply Forall_fmap in Hok. eapply Forall_impl; [exact Hok|].
    intros x Hx. change (is_ok (astype_int_cell (Some x)) = true) in Hx.
    unfold int_of. destruct (astype_int_cell (Some x)); [by eexists|done].
  - intros [Heq Hall]. rewrite (pad_full N l Heq).
    by destruct (astype_int_full l Hall) as [-> _].
Qed.

Lemma assign_weights_ok (N : nat) (w : weights_arg) :
  is_ok (assign_weights N w) = true <-> weights_fit N w.
Proof.
  destruct w as [x|ws]; simpl; [done|].
  destruct (Nat.eqb_spec (length ws) N); simpl; split; done.
Qed.

Lemma build_fixtures_rows (tms : list (option string)) (gh ga : list Z)
    (th ta : list (option string)) (ws : list Q) :
  Forall (fun f => team_home f ∈ th
                   /\ home_index f = team_index tms (team_home f)
                   /\ away_index f = team_index tms (team_away f))
    (build_fixtures tms gh ga th ta ws).
Proof.
  revert ga th ta ws.
  induction gh as [|g1 gh IH]; intros [|g2 ga] [|t1 th] [|t2 ta] [|w ws];
    simpl; try by constructor.
  constructor; simpl; [by repeat split; [left|..]|].
  eapply Forall_impl; [apply IH|]. intros f (Hin & Hh & Ha).
  repeat split; [by right|done..].
Qed.

Lemma build_fixtures_length (tms : list (option string)) (gh ga : list Z)
    (th ta : list (option string)) (ws : list Q) (N : nat) :
  length gh = N -> length ga = N -> length th = N -> length ta = N ->
  length ws = N ->
  length (build_fixtures tms gh ga th ta ws) = N.
Proof.
  revert N ga th ta ws.
  induction gh as [|g1 gh IH]; intros N [|g2 ga] [|t1 th] [|t2 ta] [|w ws];
    simpl; try congruence.
  intros <- [= H1] [= H2] [= H3] [= H4]. f_equal. by apply IH.
Qed.



(** X4.  After a successful construction from at least one row the
    fixture table has one row per position of the longest input sequence;
    in every row [home_index] is the position of the home name in the team
    table, and [away_index] is the position of the away name when it has a
    row there and is missing exactly when the away name never occurs as a
    home name. *)
Theorem init_fixture_indices cpu gh ga th ta w nj dr h m h' :
  (0 < frame_rows gh ga th ta)%nat ->
  __init__ cpu gh ga th ta w nj dr h = Ok (m, h') ->
  length (fixtures m) = frame_rows gh ga th ta
  /\ Forall (fun f =>
       (exists i, home_index f = Some i /\ teams m !! i = Some (team_home f))
       /\ match away_index f with
          | Some j => teams m !! j = Some (team_away f)
          | None => team_away f ∉ teams m
          end)
      (fixtures m).
Proof.
  intros _ Hinit.
  destruct (init_inv _ _ _ _ _ _ _ _ _ _ _ Hinit)
    as (c1 & c2 & ws & Hc1 & Hc2 & Hws & Ht & _ & Hfx & _).
  rewrite Hfx. split.
  - apply build_fixtures_length; rewrite ?pad_length; try done.
    + by rewrite (astype_int_length _ _ Hc1), pad_length.
    + by rewrite (astype_int_length _ _ Hc2), pad_length.
    + destruct (assign_weights_fit (frame_rows gh ga th ta) w)
        as (ws' & Hws' & Hlen); [by apply assign_weights_ok; rewrite Hws|].
      congruence.
  - eapply Forall_impl; [apply build_fixtures_rows|].
    intros f (Hin & Hh & Ha). split.
    + destruct (team_index (teams m) (team_home f)) as [i|] eqn:Hi.
      * exists i. split; [done|]. by apply team_index_Some.
      * apply team_index_None in Hi. exfalso. apply Hi.
        by rewrite Ht, sort_values_perm, elem_of_drop_duplicates.
    + rewrite Ha. destruct (team_index (teams m) (team_away f)) as [j|] eqn:Hj.
      * by apply team_index_Some.
      * by apply team_index_None.
Qed.

Lemma init_fixture_indices_witness :
  length (fixtures Example.model0) = 4%nat
  /\ Forall (fun f =>
       (exists i, home_index f = Some i
                  /\ teams Example.model0 !! i = Some (team_home f))
       /\ match away_index f with
          | Some j => teams Example.model0 !! j = Some (team_away f)
          | None => team_away f ∉ teams Example.model0
          end)
      (fixtures Example.model0).
Proof.
  pose proof (fun Hrows => init_fixture_indices _ _ _ _ _ _ _ _ _ _ _
                             Hrows example_init) as Hall.
  apply Hall. vm_compute. lia.
Defined.

(** ** More on [fit]: what it touches and when it completes *)

Lemma dict_setitem_length (p : loc) (k : string) (v : R) (h : Heap) :
  length (dict_setitem p k v h) = length h.
Proof. unfold dict_setitem. apply length_alter. Qed.

Lemma fit_rows_frame (tr : MultiTrace) (p : loc) (rows : list (option string)) :
  forall idx (h : Heap),
    length (fit_rows tr p idx rows h).2 = length h
    /\ forall q, q <> p -> (fit_rows tr p idx rows h).2 !! q = h !! q.
Proof.
  induction rows as [|row rows IH]; intros idx h; simpl; [done|].
  destruct (column idx (trace_atts tr)) as [xs|]; simpl; [|done].
  destruct row as [team|]; simpl; [|done].
  destruct (column idx (trace_defs tr)) as [ys|]; simpl.
  - destruct (IH (S idx)
                (dict_setitem p ("defence_" +:+ team) (np_mean ys)
                   (dict_setitem p ("attack_" +:+ team) (np_mean xs) h)))
      as [Hlen Hq].
    split; [by rewrite Hlen, !dict_setitem_length|].
    intros q Hne. by rewrite Hq, !dict_setitem_lookup_ne.
  - split; [apply dict_setitem_length|].
    intros q Hne. by rewrite dict_setitem_lookup_ne.
Qed.

(** X5.  Whatever its outcome, [fit] writes only to the model's own
    parameter dict and to the attributes [trace] and [fitted]: the fixture
    table, the team table, [n_teams], [draws], [n_jobs] and the identity of
    the parameter dict are unchanged, no dict object is created, and every
    other dict object of the heap is left as it was. *)
Theorem fit_frame (m m' : Model) (h h' : Heap) (s : result MultiTrace)
    (r : result unit) :
  fit m s h = (r, m', h') ->
  fixtures m' = fixtures m /\ teams m' = teams m /\ n_teams m' = n_teams m
  /\ draws m' = draws m /\ n_jobs m' = n_jobs m /\ params m' = params m
  /\ length h' = length h
  /\ forall q, q <> params m -> h' !! q = h !! q.
Proof.
  unfold fit. destruct s as [tr|e]; [|by intros [= <- <- <-]].
  pose proof (fit_rows_frame tr (params m) (teams m) 0
                (dict_setitem (params m) "intercept" (np_mean (trace_intercept tr))
                   (dict_setitem (params m) "home" (np_mean (trace_home tr)) h)))
    as [Hlen Hq].
  destruct (fit_rows _ _ _ _ _) as [[[]|e] h3]; intros [= <- <- <-]; simpl in *;
    (repeat (split; [reflexivity|]));
    (split; [by rewrite Hlen, !dict_setitem_length|]);
    intros q Hne; by rewrite Hq, !dict_setitem_lookup_ne.
Qed.

Lemma fit_frame_witness :
  teams Example.model1 = teams Example.model0
  /\ params Example.model1 = params Example.model0
  /\ length Example.heap1 = length Example.heap0.
Proof.
  destruct (fit_frame _ _ _ _ _ _ example_fit)
    as (_ & Ht & _ & _ & _ & Hp & Hlen & _).
  by repeat split.
Defined.

(** X6.  A model is in the fitted state exactly when some [fit] call on
    it has completed: a later [fit] call that raises, in the sampler or
    afterwards, never takes a fitted model back to unfitted. *)
Theorem run_fitted_iff (log : list (result unit)) (m : Model) (h : Heap) :
  run log m h ->
  (fitted m = true <-> Exists (fun r => is_ok r = true) log).
Proof.
  induction 1 as [cpu gh ga th ta w nj dr h m h' Hinit
                 |log m h s r m' h' _ IH Hc Hfit].
  - destruct (init_facts _ _ _ _ _ _ _ _ _ _ _ Hinit) as (_ & _ & Hf & _).
    rewrite Hf, Exists_nil. split; [done|intros []].
  - rewrite Exists_cons, <- IH. unfold fit in Hfit.
    destruct s as [tr|e].
    + destruct (fit_rows _ _ _ _ _) as [[[]|e] h3];
        injection Hfit as <- <- <-; simpl; [by split; [left|]|].
      split; [by right|]. by intros [|].
    + injection Hfit as <- <- <-. simpl. split; [by right|]. by intros [|].
Qed.

Lemma run_fitted_iff_witness :
  run [Ok tt] Example.model1 Example.heap1
  /\ (fitted Example.model1 = true
      <-> Exists (fun r : result unit => is_ok r = true) [Ok tt]).
Proof.
  assert (run [Ok tt] Example.model1 Example.heap1) as Hrun.
  { apply (run_fit [] Example.model0 Example.heap0 (Ok Example.samples));
      [exact example_run0| |exact example_fit].
    split; repeat constructor. }
  split; [exact Hrun|]. exact (run_fitted_iff _ _ _ Hrun).
Defined.

(** X7.  On a model whose team names are all present, a [fit] call whose
    sampler returns a trace of the declared shape completes: it raises
    nothing, stores the trace and leaves the model fitted.  This holds
    for a first fit and for every later one. *)
Theorem fit_completes (log : list (result unit)) (m : Model) (h : Heap)
    (tr : MultiTrace) :
  run log m h -> Forall is_Some (teams m) -> trace_shape (n_teams m) tr ->
  exists m' h',
    fit m (Ok tr) h = (Ok tt, m', h')
    /\ fitted m' = true /\ trace m' = Some tr.
Proof.
  intros Hrun Hsome Hshape.
  destruct (run_invariant log m h Hrun) as [_ Hn _].
  unfold fit.
  pose proof (fit_rows_ok tr (params m) (teams m) 0
                (dict_setitem (params m) "intercept" (np_mean (trace_intercept tr))
                   (dict_setitem (params m) "home" (np_mean (trace_home tr)) h))
                Hsome) as Hok.
  destruct (fit_rows _ _ _ _ _) as [[[]|e] h3]; simpl in Hok.
  - by eexists _, _.
  - exfalso. assert (Raise e = Ok tt :> result unit); [|done].
    apply Hok. intros j Hj. simpl.
    apply (trace_shape_columns (n_teams m)); [done|lia].
Qed.

Lemma fit_completes_witness :
  run [] Example.model0 Example.heap0
  /\ Forall is_Some (teams Example.model0)
  /\ trace_shape (n_teams Example.model0) Example.samples
  /\ exists m' h',
       fit Example.model0 (Ok Example.samples) Example.heap0 = (Ok tt, m', h')
       /\ fitted m' = true /\ trace m' = Some Example.samples.
Proof.
  assert (Forall is_Some (teams Example.model0)) as H1
    by (vm_compute; repeat constructor; by eexists).
  assert (trace_shape (n_teams Example.model0) Example.samples) as H2
    by (split; repeat constructor).
  split; [exact example_run0|]. split; [exact H1|]. split; [exact H2|].
  exact (fit_completes [] _ _ _ example_run0 H1 H2).
Defined.

(** X8.  Every construction creates its own parameter dict and leaves
    the existing dict objects alone; fitting one model therefore never
    changes the parameter dict of a model constructed before it. *)
Theorem instances_independent cpu1 gh1 ga1 th1 ta1 w1 nj1 dr1
    cpu2 gh2 ga2 th2 ta2 w2 nj2 dr2 (h h1 h2 h3 : Heap) (m1 m2 m2' : Model)
    (s : result MultiTrace) (r : result unit) :
  __init__ cpu1 gh1 ga1 th1 ta1 w1 nj1 dr1 h = Ok (m1, h1) ->
  __init__ cpu2 gh2 ga2 th2 ta2 w2 nj2 dr2 h1 = Ok (m2, h2) ->
  fit m2 s h2 = (r, m2', h3) ->
  params m1 <> params m2
  /\ h !! params m1 = None
  /\ h1 !! params m1 = Some ∅
  /\ h2 !! params m1 = h1 !! params m1
  /\ h3 !! params m1 = h1 !! params m1.
Proof.
  intros Hi1 Hi2 Hfit.
  destruct (init_inv _ _ _ _ _ _ _ _ _ _ _ Hi1)
    as (_ & _ & _ & _ & _ & _ & _ & _ & _ & Hp1 & -> & _).
  destruct (init_inv _ _ _ _ _ _ _ _ _ _ _ Hi2)
    as (_ & _ & _ & _ & _ & _ & _ & _ & _ & Hp2 & -> & _).
  destruct (fit_frame _ _ _ _ _ _ Hfit) as (_ & _ & _ & _ & _ & _ & _ & Hq).
  rewrite length_app in Hp2. simpl in Hp2.
  assert (params m1 <> params m2) as Hne by lia.
  split; [done|]. split; [by apply lookup_ge_None_2; lia|].
  split; [by rewrite Hp1, lookup_app_r, Nat.sub_diag by lia|].
  assert ((h ++ [∅]) !! params m1 = Some (∅ : gmap string R)) as Hl
    by (by rewrite Hp1, lookup_app_r, Nat.sub_diag by lia).
  split.
  - rewrite lookup_app_l; [done|]. rewrite length_app. simpl. lia.
  - rewrite Hq by done. rewrite lookup_app_l; [done|].
    rewrite length_app. simpl. lia.
Qed.

Lemma instances_independent_witness :
  exists m2 h2,
    __init__ None [PyInt 2] [PyInt 2] ["X"] ["Y"] (WScalar 1) (Some 1) 10
      Example.heap0 = Ok (m2, h2)
    /\ params Example.model0 <> params m2
    /\ h2 !! params Example.model0 = Example.heap0 !! params Example.model0.
Proof.
  destruct (__init__ None [PyInt 2] [PyInt 2] ["X"] ["Y"] (WScalar 1) (Some 1) 10
              Example.heap0) as [[m2 h2]|e] eqn:Hi2;
    [|vm_compute in Hi2; discriminate].
  exists m2, h2. split; [reflexivity|].
  destruct (instances_independent _ _ _ _ _ _ _ _ _ _ _ _ _ _ _ _
              [] Example.heap0 h2 h2 Example.model0 m2 m2
              (Raise IndexError) (Raise IndexError) example_init Hi2 eq_refl)
    as (Hne & _ & _ & Hh2 & _).
  split; [exact Hne|exact Hh2].
Defined.

(** ** More on [predict] *)


(** X10.  Raising [max_goals] extends the grid without changing it: for
    [k <= k'] the grid for [k'] has the same rates and, on every cell
    [(i, j)] with [i, j < k], the same entry as the grid for [k]. *)
Theorem predict_grid_extends (m : Model) (h : Heap)
    (home_team away_team : string) (k k' : Z) :
  fitted_model m h -> Some home_team ∈ teams m -> Some away_team ∈ teams m ->
  k <= k' ->
  exists g g',
    predict m home_team away_team k h = Ok g
    /\ predict m home_team away_team k' h = Ok g'
    /\ home_goal_expectation g' = home_goal_expectation g
    /\ away_goal_expectation g' = away_goal_expectation g
    /\ forall i j, (i < Z.to_nat k)%nat -> (j < Z.to_nat k)%nat ->
         exists x,
           (data (grid g) !! i) ≫= (fun row => row !! j) = Some x
           /\ (data (grid g') !! i) ≫= (fun row => row !! j) = Some x.
Proof.
  intros Hfm Hhome Haway Hk.
  destruct (predict_fitted m h home_team away_team Hfm Hhome Haway)
    as (hm & ic & ah & aa & dh & da & _ & _ & _ & _ & _ & _ & Hpred).
  eexists _, _. split; [apply Hpred|]. split; [apply Hpred|].
  cbn [home_goal_expectation away_goal_expectation grid].
  split; [done|]. split; [done|]. intros i j Hi Hj. eexists. split.
  - apply (np_outer_lookup (goals_vector _ _) (goals_vector _ _));
      by apply goals_vector_lookup.
  - apply (np_outer_lookup (goals_vector _ _) (goals_vector _ _));
      apply goals_vector_lookup; lia.
Qed.

Lemma predict_grid_extends_witness :
  fitted_model Example.model1 Example.heap1
  /\ Some "A" ∈ teams Example.model1
  /\ Some "C" ∈ teams Example.model1
  /\ 3 <= 15
  /\ exists g g',
       predict Example.model1 "A" "C" 3 Example.heap1 = Ok g
       /\ predict Example.model1 "A" "C" 15 Example.heap1 = Ok g'
       /\ home_goal_expectation g' = home_goal_expectation g.
Proof.
  split; [exact example_fitted|].
  split; [apply example_known; auto|].
  split; [apply example_known; auto|].
  split; [lia|].
  destruct (predict_grid_extends Example.model1 Example.heap1 "A" "C" 3 15
              example_fitted
              (example_known "A" (or_introl eq_refl))
              (example_known "C" (or_intror (or_intror eq_refl))) ltac:(lia))
    as (g & g' & Hg & Hg' & Hh & _).
  exists g, g'. split; [exact Hg|]. split; [exact Hg'|exact Hh].
Defined.


(** ** The ESPN scraper *)

Section Scraper.
Import ESPN.

Lemma str_split_head (s : string) :
  exists w ws,
    str_split "-" s = w :: ws
    /\ ("-"%char ∉ list_ascii_of_string w)
    /\ (s = w \/ exists rest, s = w +:+ "-" +:+ rest).
Proof.
  induction s as [|c s (w & ws & Hsplit & Hfree & Hs)]; simpl.
  - exists "", []. split; [done|]. split; [apply not_elem_of_nil|by left].
  - destruct (Ascii.eqb_spec c "-") as [->|Hne].
    + exists "", (str_split "-" s). split; [done|].
      split; [apply not_elem_of_nil|]. right. by exists s.
    + rewrite Hsplit. exists (String c w), ws. split; [done|]. split.
      * simpl. rewrite not_elem_of_cons. split; [congruence|done].
      * destruct Hs as [->|[rest ->]]; [by left|]. right. by exists rest.
Qed.

(** X12.  [_map_season] never raises: it returns the part of the season
    before its first hyphen, that is the whole season when it has no
    hyphen, and [y1] for a season [y1-rest] where [y1] has no hyphen. *)
Theorem map_season_first_part (season : string) :
  exists part1,
    _map_season season = Return part1
    /\ ("-"%char ∉ list_ascii_of_string part1)
    /\ (season = part1 \/ exists rest, season = part1 +:+ "-" +:+ rest).
Proof.
  destruct (str_split_head season) as (w & ws & Hsplit & Hfree & Hs).
  exists w. unfold _map_season. rewrite Hsplit. by repeat split.
Qed.

Lemma scrape_events_Forall2 (es : list json) (out : list (gmap string json)) :
  scrape_events es = Return out
  <-> Forall2 (fun e tmp => scrape_event e = Return tmp) es out.
Proof.
  revert out. induction es as [|e es IH]; intros out; cbn [scrape_events].
  - split.
    + intros [= <-]. constructor.
    + intros Hnil. by apply Forall2_nil_inv_l in Hnil as ->.
  - split.
    + destruct (scrape_event e) as [tmp|] eqn:He; cbn [and_then]; [|done].
      destruct (scrape_events es) as [evs|] eqn:Hes; cbn [and_then]; [|done].
      intros [= <-]. constructor; [done|]. by apply IH.
    + intros (tmp & evs & He & Hes & ->)%Forall2_cons_inv_l.
      apply IH in Hes. by rewrite He, Hes.
Qed.

(** X13.  [_scrape_fixture_events] is all or nothing and keeps the order:
    it returns a list exactly when the document is an object whose
    [events] value (an empty list when the key is absent) can be iterated
    and every event can be scraped, and the list then holds the dict of
    each event, in the order of the events.  In particular an object
    without the key [events] gives the empty list. *)
Theorem scrape_fixture_events_all_or_nothing (content : json)
    (out : list (gmap string json)) :
  (_scrape_fixture_events content = Return out
   <-> exists evs es,
         get content "events" (JList []) = Return evs
         /\ iterate evs = Return es
         /\ Forall2 (fun e tmp => scrape_event e = Return tmp) es out)
  /\ (forall fields, lookup_key "events" fields = None ->
        _scrape_fixture_events (JObj fields) = Return []).
Proof.
  split.
  - unfold _scrape_fixture_events. split.
    + destruct (get content "events" (JList [])) as [evs|]; cbn [and_then]; [|done].
      destruct (iterate evs) as [es|] eqn:Hit; cbn [and_then]; [|done].
      intros Hes. exists evs, es. split; [done|]. split; [done|].
      by apply scrape_events_Forall2.
    + intros (evs & es & -> & Hit & Hall). cbn [and_then]. rewrite Hit.
      cbn [and_then]. by apply scrape_events_Forall2.
  - intros fields Hnone. unfold _scrape_fixture_events, get. by rewrite Hnone.
Qed.
End Scraper.

Section ScraperEvent.
Import ESPN.

Lemma list_ascii_of_string_app (a b : string) :
  list_ascii_of_string (a +:+ b) = list_ascii_of_string a ++ list_ascii_of_string b.
Proof. induction a as [|c a IH]; [done|]. cbn. by rewrite <- IH. Qed.

Lemma strip_suffix_app (n suffix : string) :
  strip_suffix (n +:+ suffix) suffix = Some n.
Proof.
  unfold strip_suffix. rewrite list_ascii_of_string_app, length_app.
  replace (length (list_ascii_of_string n) + length (list_ascii_of_string suffix)
           - length (list_ascii_of_string suffix))%nat
    with (length (list_ascii_of_string n)) by lia.
  rewrite drop_app_length, take_app_length.
  rewrite decide_True by done. by rewrite string_of_list_ascii_of_string.
Qed.

Lemma home_away_keys_differ (n n' : string) : n +:+ "_home" <> n' +:+ "_away".
Proof.
  intros Heq. apply (f_equal list_ascii_of_string) in Heq.
  rewrite !list_ascii_of_string_app in Heq.
  apply app_inj_2 in Heq as [_ Heq]; [discriminate|done].
Qed.

Lemma stat_key_suffix (suffix : string) (stat : json) (k : string) :
  stat_key suffix stat = Some k -> exists n, k = n +:+ suffix.
Proof.
  unfold stat_key. destruct (getitem stat "name") as [[| | | |n| |]|]; try done.
  intros [= <-]. by exists n.
Qed.

Lemma scrape_statistics_spec (suffix : string) (stats : list json) :
  forall tmp tmp' : gmap string json,
    scrape_statistics suffix stats tmp = Return tmp' ->
    (forall k, (forall stat, stat ∈ stats -> stat_key suffix stat <> Some k) ->
               tmp' !! k = tmp !! k)
    /\ (forall pre stat post k,
          stats = pre ++ stat :: post ->
          stat_key suffix stat = Some k ->
          (forall s, s ∈ post -> stat_key suffix s <> Some k) ->
          exists v, getitem stat "displayValue" = Return v /\ tmp' !! k = Some v)
    /\ (forall k, is_Some (tmp' !! k) ->
          is_Some (tmp !! k)
          \/ exists stat, stat ∈ stats /\ stat_key suffix stat = Some k).
Proof.
  induction stats as [|stat rest IH]; intros tmp tmp'; cbn [scrape_statistics].
  - intros [= <-]. split; [done|]. split; [|by left].
    intros [|] ? ? ? Heq; discriminate.
  - destruct (getitem stat "displayValue") as [v|] eqn:Hv; cbn [and_then]; [|done].
    destruct (getitem stat "name") as [name|] eqn:Hname; cbn [and_then]; [|done].
    destruct name as [| | | |n| |]; cbn [add_str and_then]; try done.
    intros Hrest. destruct (IH _ _ Hrest) as (Hframe & Hlast & Hdom).
    assert (stat_key suffix stat = Some (n +:+ suffix)) as Hkey
      by (unfold stat_key; by rewrite Hname).
    split; [|split].
    + intros k Hk. rewrite Hframe by (intros s Hs; apply Hk; by right).
      rewrite lookup_insert_ne; [done|].
      intros <-. by apply (Hk stat); [left|].
    + intros [|p pre] stat0 post k [= <- Hpost] Hk0 Hnone.
      * subst post. exists v. split; [done|]. rewrite Hframe by done.
        rewrite Hkey in Hk0. injection Hk0 as <-. apply lookup_insert_eq.
      * by apply (Hlast pre stat0 post k).
    + intros k Hk. destruct (Hdom k Hk) as [Hin|(s & Hs & Hsk)].
      * destruct (decide (k = n +:+ suffix)) as [->|Hne].
        -- right. exists stat. split; [by left|done].
        -- left. by rewrite lookup_insert_ne in Hin.
      * right. exists s. split; [by right|done].
Qed.

Lemma scrape_event_inv (e : json) (tmp : gmap string json) :
  scrape_event e = Return tmp ->
  exists c c0 c1 t0 t1 v_id v_dt v_att v_th v_ta v_gh v_ga s0 s1 stats0 stats1 tmp1,
    competition e = Return c
    /\ get c "id" JNull = Return v_id
    /\ get c "date" JNull = Return v_dt
    /\ get c "attendance" JNull = Return v_att
    /\ competitor e 0 = Return c0
    /\ competitor e 1 = Return c1
    /\ getitem c0 "team" = Return t0 /\ get t0 "name" JNull = Return v_th
    /\ getitem c1 "team" = Return t1 /\ get t1 "name" JNull = Return v_ta
    /\ get c0 "score" JNull = Return v_gh
    /\ get c1 "score" JNull = Return v_ga
    /\ getitem c0 "statistics" = Return s0 /\ iterate s0 = Return stats0
    /\ getitem c1 "statistics" = Return s1 /\ iterate s1 = Return stats1
    /\ scrape_statistics "_home" stats0
         (<["goals_away" := v_ga]> (<["goals_home" := v_gh]>
           (<["team_away" := v_ta]> (<["team_home" := v_th]>
             (<["attendance" := v_att]> (<["datetime" := v_dt]>
               (<["espn_id" := v_id]> ∅)))))))
       = Return tmp1
    /\ scrape_statistics "_away" stats1 tmp1 = Return tmp.
Proof.
  unfold scrape_event.
  destruct (competition e) as [c|] eqn:Hc; cbn [and_then]; [|done].
  destruct (get c "id" JNull) as [v_id|] eqn:H1; cbn [and_then]; [|done].
  destruct (get c "date" JNull) as [v_dt|] eqn:H2; cbn [and_then]; [|done].
  destruct (get c "attendance" JNull) as [v_att|] eqn:H3; cbn [and_then]; [|done].
  destruct (competitor e 0) as [c0|] eqn:Hc0; cbn [and_then]; [|done].
  destruct (getitem c0 "team") as [t0|] eqn:Ht0; cbn [and_then]; [|done].
  destruct (get t0 "name" JNull) as [v_th|] eqn:H4; cbn [and_then]; [|done].
  destruct (competitor e 1) as [c1|] eqn:Hc1; cbn [and_then]; [|done].
  destruct (getitem c1 "team") as [t1|] eqn:Ht1; cbn [and_then]; [|done].
  destruct (get t1 "name" JNull) as [v_ta|] eqn:H5; cbn [and_then]; [|done].
  destruct (get c0 "score" JNull) as [v_gh|] eqn:H6; cbn [and_then]; [|done].
  destruct (get c1 "score" JNull) as [v_ga|] eqn:H7; cbn [and_then]; [|done].
  destruct (getitem c0 "statistics") as [s0|] eqn:Hs0; cbn [and_then]; [|done].
  destruct (iterate s0) as [stats0|] eqn:Hi0; cbn [and_then]; [|done].
  destruct (scrape_statistics "_home" stats0 _) as [tmp1|] eqn:Hh;
    cbn [and_then]; [|done].
  destruct (getitem c1 "statistics") as [s1|] eqn:Hs1; cbn [and_then]; [|done].
  destruct (iterate s1) as [stats1|] eqn:Hi1; cbn [and_then]; [|done].
  intros Ha.
  exists c, c0, c1, t0, t1, v_id, v_dt, v_att, v_th, v_ta, v_gh, v_ga,
    s0, s1, stats0, stats1, tmp1.
  by repeat (split; [done|]).
Qed.
End ScraperEvent.

Section ScraperClaims.
Import ESPN.

Lemma scrape_statistics_keeps (suffix : string) (stats : list json) :
  forall (tmp tmp' : gmap string json) (k : string),
    scrape_statistics suffix stats tmp = Return tmp' ->
    is_Some (tmp !! k) -> is_Some (tmp' !! k).
Proof.
  induction stats as [|stat rest IH]; intros tmp tmp' k; cbn [scrape_statistics].
  - by intros [= <-].
  - destruct (getitem stat "displayValue") as [v|]; cbn [and_then]; [|done].
    destruct (getitem stat "name") as [name|]; cbn [and_then]; [|done].
    destruct (add_str name suffix) as [key|]; cbn [and_then]; [|done].
    intros Hrest Hk. apply (IH _ _ _ Hrest).
    apply lookup_insert_is_Some'. by right.
Qed.

Lemma base_key_not_stat_key (suffix : string) (stat : json) (k : string) :
  suffix = "_home" \/ suffix = "_away" ->
  k = "espn_id" \/ k = "datetime" \/ k = "attendance" ->
  stat_key suffix stat <> Some k.
Proof.
  intros Hsuf Hk Hkey. apply stat_key_suffix in Hkey as [n Hn].
  pose proof (strip_suffix_app n suffix) as Hs. rewrite <- Hn in Hs.
  destruct Hsuf as [-> | ->], Hk as [-> | [-> | ->]];
    vm_compute in Hs; discriminate.
Qed.

Lemma away_stat_key_not_home (stat : json) (n : string) :
  stat_key "_away" stat <> Some (n +:+ "_home").
Proof.
  intros Hkey. apply stat_key_suffix in Hkey as [n' Hn].
  by apply home_away_keys_differ in Hn.
Qed.

(** X14.  Every dict [_scrape_fixture_events] builds for an event has
    the seven keys [espn_id], [datetime], [attendance], [team_home],
    [team_away], [goals_home] and [goals_away], and every other key of it
    is the name of a statistic followed by [_home] or [_away]. *)
Theorem scrape_event_keys (e : json) (tmp : gmap string json) :
  scrape_event e = Return tmp ->
  base_keys ⊆ dom tmp
  /\ forall k, k ∈ dom tmp ->
       k ∈ base_keys \/ (exists n, k = n +:+ "_home") \/ (exists n, k = n +:+ "_away").
Proof.
  intros He.
  destruct (scrape_event_inv e tmp He)
    as (c & c0 & c1 & t0 & t1 & v_id & v_dt & v_att & v_th & v_ta & v_gh & v_ga
        & s0 & s1 & stats0 & stats1 & tmp1 & _ & _ & _ & _ & _ & _ & _ & _ & _
        & _ & _ & _ & _ & _ & _ & _ & Hhome & Haway).
  set (base := <["goals_away" := v_ga]> _) in Hhome.
  assert (dom base = base_keys) as Hbase.
  { unfold base, base_keys. rewrite !dom_insert_L, dom_empty_L. set_solver. }
  split.
  - intros k Hk. rewrite <- Hbase in Hk. apply elem_of_dom in Hk.
    apply elem_of_dom.
    apply (scrape_statistics_keeps _ _ _ _ _ Haway).
    by apply (scrape_statistics_keeps _ _ _ _ _ Hhome).
  - intros k Hk. apply elem_of_dom in Hk.
    destruct (scrape_statistics_spec _ _ _ _ Haway) as (_ & _ & Hdom_a).
    destruct (scrape_statistics_spec _ _ _ _ Hhome) as (_ & _ & Hdom_h).
    destruct (Hdom_a k Hk) as [Hk1|(s & _ & Hs)].
    + destruct (Hdom_h k Hk1) as [Hk0|(s & _ & Hs)].
      * left. rewrite <- Hbase. by apply elem_of_dom.
      * right. left. by apply stat_key_suffix in Hs.
    + right. right. by apply stat_key_suffix in Hs.
Qed.

Lemma sample_event_scrapes : is_Some (match scrape_event sample_event with
                                      | Return tmp => Some tmp
                                      | Throw _ => None
                                      end).
Proof. vm_compute. by eexists. Qed.

Lemma scrape_event_keys_witness :
  exists tmp, scrape_event sample_event = Return tmp /\ base_keys ⊆ dom tmp.
Proof.
  destruct (scrape_event sample_event) as [tmp|err] eqn:He.
  - exists tmp. split; [reflexivity|].
    exact (proj1 (scrape_event_keys sample_event tmp He)).
  - exfalso. pose proof sample_event_scrapes as [x Hx].
    rewrite He in Hx. discriminate.
Defined.

(** X15.  The keys [espn_id], [datetime] and [attendance] of an event
    dict always hold the [id], [date] and [attendance] of the event's
    first competition ([None] where the competition lacks the key): no
    statistic can overwrite them. *)
Theorem scrape_event_competition_fields (e : json) (tmp : gmap string json) :
  scrape_event e = Return tmp ->
  exists c v_id v_date v_attendance,
    competition e = Return c
    /\ get c "id" JNull = Return v_id
    /\ get c "date" JNull = Return v_date
    /\ get c "attendance" JNull = Return v_attendance
    /\ tmp !! "espn_id" = Some v_id
    /\ tmp !! "datetime" = Some v_date
    /\ tmp !! "attendance" = Some v_attendance.
Proof.
  intros He.
  destruct (scrape_event_inv e tmp He)
    as (c & c0 & c1 & t0 & t1 & v_id & v_dt & v_att & v_th & v_ta & v_gh & v_ga
        & s0 & s1 & stats0 & stats1 & tmp1 & Hc & H1 & H2 & H3 & _ & _ & _ & _ & _
        & _ & _ & _ & _ & _ & _ & _ & Hhome & Haway).
  exists c, v_id, v_dt, v_att. repeat (split; [done|]).
  destruct (scrape_statistics_spec _ _ _ _ Haway) as (Hfa & _ & _).
  destruct (scrape_statistics_spec _ _ _ _ Hhome) as (Hfh & _ & _).
  repeat split;
    (rewrite Hfa by (intros; apply base_key_not_stat_key; auto));
    (rewrite Hfh by (intros; apply base_key_not_stat_key; auto));
    by simplify_map_eq.
Qed.

Lemma scrape_event_competition_fields_witness :
  exists tmp, scrape_event sample_event = Return tmp
              /\ tmp !! "espn_id" = Some (JStr "601").
Proof.
  destruct (scrape_event sample_event) as [tmp|err] eqn:He.
  - exists tmp. split; [reflexivity|].
    destruct (scrape_event_competition_fields sample_event tmp He)
      as (c & v1 & v2 & v3 & Hc & H1 & _ & _ & Hid & _).
    vm_compute in Hc. injection Hc as <-. vm_compute in H1. injection H1 as <-.
    exact Hid.
  - exfalso. pose proof sample_event_scrapes as [x Hx].
    rewrite He in Hx. discriminate.
Defined.
End ScraperClaims.

Section ScraperStatistics.
Import ESPN.

Lemma append_inj_l (a b suffix : string) : a +:+ suffix = b +:+ suffix -> a = b.
Proof.
  intros Heq. apply (f_equal list_ascii_of_string) in Heq.
  rewrite !list_ascii_of_string_app in Heq. apply app_inv_tail in Heq.
  apply (f_equal string_of_list_ascii) in Heq.
  by rewrite !string_of_list_ascii_of_string in Heq.
Qed.

(** X16.  A statistic of the home competitor is stored under its name
    followed by [_home], one of the away competitor under its name
    followed by [_away]; when a competitor lists several statistics of one
    name, the dict holds the [displayValue] of the last of them. *)
Theorem scrape_event_statistic (e : json) (tmp : gmap string json)
    (i : nat) (suffix : string) (c s stat : json) (pre post : list json)
    (k : string) :
  (i = 0%nat /\ suffix = "_home") \/ (i = 1%nat /\ suffix = "_away") ->
  scrape_event e = Return tmp ->
  competitor e i = Return c ->
  getitem c "statistics" = Return s ->
  iterate s = Return (pre ++ stat :: post) ->
  stat_key suffix stat = Some k ->
  (forall s', s' ∈ post -> stat_key suffix s' <> Some k) ->
  exists v, getitem stat "displayValue" = Return v /\ tmp !! k = Some v.
Proof.
  intros Hside He Hc Hs Hit Hk Hpost.
  destruct (scrape_event_inv e tmp He)
    as (c' & c0 & c1 & t0 & t1 & v_id & v_dt & v_att & v_th & v_ta & v_gh & v_ga
        & s0 & s1 & stats0 & stats1 & tmp1 & _ & _ & _ & _ & Hc0 & Hc1 & _ & _ & _
        & _ & _ & _ & Hs0 & Hi0 & Hs1 & Hi1 & Hhome & Haway).
  destruct (scrape_statistics_spec _ _ _ _ Haway) as (Hfa & Hla & _).
  destruct (scrape_statistics_spec _ _ _ _ Hhome) as (_ & Hlh & _).
  destruct Hside as [[-> ->]|[-> ->]].
  - assert (c0 = c) as -> by congruence. assert (s0 = s) as -> by congruence.
    assert (stats0 = pre ++ stat :: post) as Hst by congruence.
    destruct (Hlh pre stat post k Hst Hk Hpost) as (v & Hv & Hlook).
    exists v. split; [done|]. rewrite Hfa; [done|].
    intros s' _. destruct (stat_key_suffix _ _ _ Hk) as [n ->].
    apply away_stat_key_not_home.
  - assert (c1 = c) as -> by congruence. assert (s1 = s) as -> by congruence.
    assert (stats1 = pre ++ stat :: post) as Hst by congruence.
    by apply (Hla pre stat post k Hst Hk Hpost).
Qed.

Lemma scrape_event_statistic_witness :
  exists tmp, scrape_event sample_event = Return tmp
              /\ tmp !! "totalShots_home" = Some (JStr "10")
              /\ tmp !! "goals_home" = Some (JStr "9").
Proof.
  destruct (scrape_event sample_event) as [tmp|err] eqn:He.
  - exists tmp. split; [reflexivity|]. split.
    + destruct (scrape_event_statistic sample_event tmp 0 "_home"
                  (sample_competitor "Brentford" "2"
                     [sample_stat "totalShots" "8"; sample_stat "goals" "9";
                      sample_stat "totalShots" "10"])
                  (JList [sample_stat "totalShots" "8"; sample_stat "goals" "9";
                          sample_stat "totalShots" "10"])
                  (sample_stat "totalShots" "10")
                  [sample_stat "totalShots" "8"; sample_stat "goals" "9"] []
                  "totalShots_home"
                  (or_introl (conj eq_refl eq_refl)) He eq_refl eq_refl eq_refl eq_refl)
        as (v & Hv & Hlook).
      * intros s' Hs'. by apply elem_of_nil in Hs'.
      * vm_compute in Hv. injection Hv as <-. exact Hlook.
    + destruct (scrape_event_statistic sample_event tmp 0 "_home"
                  (sample_competitor "Brentford" "2"
                     [sample_stat "totalShots" "8"; sample_stat "goals" "9";
                      sample_stat "totalShots" "10"])
                  (JList [sample_stat "totalShots" "8"; sample_stat "goals" "9";
                          sample_stat "totalShots" "10"])
                  (sample_stat "goals" "9")
                  [sample_stat "totalShots" "8"] [sample_stat "totalShots" "10"]
                  "goals_home"
                  (or_introl (conj eq_refl eq_refl)) He eq_refl eq_refl eq_refl eq_refl)
        as (v & Hv & Hlook).
      * intros s' Hs'. apply list_elem_of_singleton in Hs' as ->.
        vm_compute. discriminate.
      * vm_compute in Hv. injection Hv as <-. exact Hlook.
  - exfalso. pose proof sample_event_scrapes as [x Hx].
    rewrite He in Hx. discriminate.
Defined.

(** X17.  The key [goals_home] of an event dict holds the [score] of the
    home competitor, and [goals_away] that of the away competitor, as long
    as the competitor lists no statistic named [goals]; a statistic of that
    name takes the place of the score. *)
Theorem scrape_event_score (e : json) (tmp : gmap string json)
    (i : nat) (suffix : string) (c s score : json) (stats : list json) :
  (i = 0%nat /\ suffix = "_home") \/ (i = 1%nat /\ suffix = "_away") ->
  scrape_event e = Return tmp ->
  competitor e i = Return c ->
  get c "score" JNull = Return score ->
  getitem c "statistics" = Return s ->
  iterate s = Return stats ->
  (forall stat, stat ∈ stats -> getitem stat "name" <> Return (JStr "goals")) ->
  tmp !! ("goals" +:+ suffix) = Some score.
Proof.
  intros Hside He Hc Hscore Hs Hit Hnone.
  destruct (scrape_event_inv e tmp He)
    as (c' & c0 & c1 & t0 & t1 & v_id & v_dt & v_att & v_th & v_ta & v_gh & v_ga
        & s0 & s1 & stats0 & stats1 & tmp1 & _ & _ & _ & _ & Hc0 & Hc1 & _ & _ & _
        & _ & Hgh & Hga & Hs0 & Hi0 & Hs1 & Hi1 & Hhome & Haway).
  destruct (scrape_statistics_spec _ _ _ _ Haway) as (Hfa & _ & _).
  destruct (scrape_statistics_spec _ _ _ _ Hhome) as (Hfh & _ & _).
  assert (Hno : forall stat, stat ∈ stats ->
                             stat_key suffix stat <> Some ("goals" +:+ suffix)).
  { intros stat Hin Hkey. apply (Hnone stat Hin). unfold stat_key in Hkey.
    destruct (getitem stat "name") as [[| | | |n| |]|]; try done.
    injection Hkey as Hkey. by apply append_inj_l in Hkey as ->. }
  destruct Hside as [[-> ->]|[-> ->]].
  - assert (c0 = c) as -> by congruence. assert (s0 = s) as -> by congruence.
    assert (stats0 = stats) as -> by congruence.
    assert (v_gh = score) as -> by congruence.
    rewrite Hfa by (intros; apply (away_stat_key_not_home _ "goals")).
    rewrite Hfh by done. by simplify_map_eq.
  - assert (c1 = c) as -> by congruence. assert (s1 = s) as -> by congruence.
    assert (stats1 = stats) as -> by congruence.
    assert (v_ga = score) as -> by congruence.
    rewrite Hfa by done. rewrite Hfh; [by simplify_map_eq|].
    intros stat _ Hkey. apply stat_key_suffix in Hkey as [n Hn].
    symmetry in Hn. by apply home_away_keys_differ in Hn.
Qed.

Lemma scrape_event_score_witness :
  exists tmp, scrape_event sample_event = Return tmp
              /\ tmp !! "goals_away" = Some (JStr "0").
Proof.
  destruct (scrape_event sample_event) as [tmp|err] eqn:He.
  - exists tmp. split; [reflexivity|].
    apply (scrape_event_score sample_event tmp 1 "_away"
             (sample_competitor "Arsenal" "0" [sample_stat "totalShots" "22"])
             (JList [sample_stat "totalShots" "22"]) (JStr "0")
             [sample_stat "totalShots" "22"]
             (or_intror (conj eq_refl eq_refl)) He eq_refl eq_refl eq_refl eq_refl).
    intros stat Hin. apply list_elem_of_singleton in Hin as ->.
    vm_compute. discriminate.
  - exfalso. pose proof sample_event_scrapes as [x Hx].
    rewrite He in Hx. discriminate.
Defined.
End ScraperStatistics.
